(** * Static-asset server: logging and gzip middleware (main.go)

    A shallow embedding of [main.go]: the [statusWriter] and
    [gzipResponseWriter] decorators, [shouldCompress], [gzipMiddleware] and
    [loggingMiddleware].  The interface [http.ResponseWriter] is a type
    class; the decorators are records with an instance each; the pool of
    compressors, the clock and the log are fields of an explicit
    environment threaded through the handlers. *)

From Stdlib Require Import ZArith Lia List String Ascii Bool.
From Stdlib Require Import Strings.Byte.
From stdpp Require Import base option list strings gmap.

Open Scope Z_scope.
Open Scope string_scope.

(** ** Go strings: [strings.HasPrefix], [strings.Contains], [strings.ToLower] *)

Module GoStrings.

(** [strings.HasPrefix s prefix]. *)
Definition HasPrefix (s prefix : string) : bool := String.prefix prefix s.

(** [strings.Contains s substr]: [substr] occurs at some offset of [s]. *)
Fixpoint Contains (s substr : string) : bool :=
  HasPrefix s substr ||
  match s with
  | EmptyString => false
  | String _ s' => Contains s' substr
  end.

(** A byte below [utf8.RuneSelf] (0x80). *)
Definition isASCIIByte (c : ascii) : bool := (N_of_ascii c <? 128)%N.

Fixpoint isASCII (s : string) : bool :=
  match s with
  | EmptyString => true
  | String c s' => isASCIIByte c && isASCII s'
  end.

(** The ASCII fast path of [strings.ToLower]: ['A'..'Z'] gets ['a' - 'A']
    added, every other byte is kept. *)
Definition lowerByte (c : ascii) : ascii :=
  let n := N_of_ascii c in
  if ((65 <=? n) && (n <=? 90))%N then ascii_of_N (n + 32) else c.

Fixpoint lowerASCII (s : string) : string :=
  match s with
  | EmptyString => EmptyString
  | String c s' => String (lowerByte c) (lowerASCII s')
  end.

(** [strings.ToLower]: byte-wise on an ASCII string, and
    [strings.Map unicode.ToLower] (the argument [unicodeLower], a table of
    the Go library) on any other. *)
Definition ToLower (unicodeLower : string -> string) (s : string) : string :=
  if isASCII s then lowerASCII s else unicodeLower s.

End GoStrings.

(** ** [http.Header] *)

Module Header.

(** [map[string][]string]; the keys used by the program are in canonical
    form already. *)
Abbreviation t := (gmap string (list string)).

(** [h.Get key]: the first value of the key, the empty string without one. *)
Definition Get (h : t) (key : string) : string :=
  match h !! key with
  | Some (v :: _) => v
  | _ => ""
  end.

(** [h.Set key value]: the key gets the single value. *)
Definition Set_ (key value : string) (h : t) : t := <[key := [value]]> h.

(** [h.Add key value]: the value is appended to those of the key. *)
Definition Add (key value : string) (h : t) : t :=
  <[key := (default [] (h !! key) ++ [value])%list]> h.

(** [h.Del key]. *)
Definition Del (key : string) (h : t) : t := delete key h.

(** The key is present in the map (it would be sent). *)
Definition Has (h : t) (key : string) : bool := bool_decide (is_Some (h !! key)).

End Header.

(** ** [http.ResponseWriter] *)

(** Go's [error] result of a write: [None] is [nil]. *)
Definition error := option string.

(** The interface.  [Header()] returns a reference to the writer's header
    map: reading it is [Header], mutating through it is [updHeader]. *)
Class ResponseWriter (W : Type) := {
  Header : W -> Header.t;
  updHeader : (Header.t -> Header.t) -> W -> W;
  Write : list byte -> W -> (Z * error) * W;
  WriteHeader : Z -> W -> W
}.

Definition StatusOK : Z := 200.

(** [len(b)] as a Go [int]. *)
Definition len {A} (b : list A) : Z := Z.of_nat (List.length b).

(** Go's [append(s, b...)] on a byte slice that may be [nil] ([None]):
    appending no element returns the slice itself, so [nil] stays [nil]. *)
Definition goAppend (s : option (list byte)) (b : list byte) : option (list byte) :=
  match b with
  | [] => s
  | _ :: _ => Some (default [] s ++ b)%list
  end.

(** ** The writer at the bottom of the chain

    The server's own writer is outside the program.  It is modelled as a
    recorder of the calls it receives, each with the header map at the time
    of the call. *)

Inductive call :=
  | CallWriteHeader (code : Z) (h : Header.t)
  | CallWrite (b : list byte) (h : Header.t).

Record recorder := {
  rec_header : Header.t;
  rec_calls : list call
}.

Definition recorder_Write (b : list byte) (w : recorder) : (Z * error) * recorder :=
  ((len b, None),
   {| rec_header := rec_header w;
      rec_calls := (rec_calls w ++ [CallWrite b (rec_header w)])%list |}).

Definition recorder_WriteHeader (code : Z) (w : recorder) : recorder :=
  {| rec_header := rec_header w;
     rec_calls := (rec_calls w ++ [CallWriteHeader code (rec_header w)])%list |}.

#[export] Instance recorder_ResponseWriter : ResponseWriter recorder := {
  Header := rec_header;
  updHeader f w := {| rec_header := f (rec_header w); rec_calls := rec_calls w |};
  Write := recorder_Write;
  WriteHeader := recorder_WriteHeader
}.

Definition newRecorder : recorder := {| rec_header := ∅; rec_calls := [] |}.

(** What the transport makes of the calls: the first call commits the
    response, a [WriteHeader] with its code and a [Write] with 200; the
    header sent is the map at that call; the body is every written slice in
    order.  [None]: nothing was committed by the handlers. *)
Definition sentStatus (cs : list call) : option Z :=
  match cs with
  | [] => None
  | CallWriteHeader c _ :: _ => Some c
  | CallWrite _ _ :: _ => Some StatusOK
  end.

Definition sentHeader (cs : list call) : option Header.t :=
  match cs with
  | [] => None
  | CallWriteHeader _ h :: _ => Some h
  | CallWrite _ h :: _ => Some h
  end.

Fixpoint sentBody (cs : list call) : list byte :=
  match cs with
  | [] => []
  | CallWriteHeader _ _ :: cs' => sentBody cs'
  | CallWrite b _ :: cs' => (b ++ sentBody cs')%list
  end.

(** The codes of the [WriteHeader] calls received, in order. *)
Fixpoint headerCalls (cs : list call) : list Z :=
  match cs with
  | [] => []
  | CallWriteHeader c _ :: cs' => c :: headerCalls cs'
  | CallWrite _ _ :: cs' => headerCalls cs'
  end.

(** ** [statusWriter] *)

Record statusWriter (W : Type) := {
  sw_ResponseWriter : W;
  sw_status : Z;
  sw_wroteHeader : bool
}.
Arguments sw_ResponseWriter {W} _.
Arguments sw_status {W} _.
Arguments sw_wroteHeader {W} _.

Section StatusWriter.
Context {W : Type} `{ResponseWriter W}.

(** [func (w *statusWriter) WriteHeader(code int)] *)
Definition statusWriter_WriteHeader (code : Z) (w : statusWriter W) : statusWriter W :=
  let w1 :=
    if negb (sw_wroteHeader w)
    then {| sw_ResponseWriter := sw_ResponseWriter w;
            sw_status := code;
            sw_wroteHeader := true |}
    else w in
  {| sw_ResponseWriter := WriteHeader code (sw_ResponseWriter w1);
     sw_status := sw_status w1;
     sw_wroteHeader := sw_wroteHeader w1 |}.

(** The methods promoted from the embedded [http.ResponseWriter]. *)
Definition statusWriter_Write (b : list byte) (w : statusWriter W)
  : (Z * error) * statusWriter W :=
  let '(r, inner) := Write b (sw_ResponseWriter w) in
  (r, {| sw_ResponseWriter := inner;
         sw_status := sw_status w;
         sw_wroteHeader := sw_wroteHeader w |}).

Definition statusWriter_updHeader (f : Header.t -> Header.t) (w : statusWriter W)
  : statusWriter W :=
  {| sw_ResponseWriter := updHeader f (sw_ResponseWriter w);
     sw_status := sw_status w;
     sw_wroteHeader := sw_wroteHeader w |}.

#[global] Instance statusWriter_ResponseWriter : ResponseWriter (statusWriter W) := {
  Header w := Header (sw_ResponseWriter w);
  updHeader := statusWriter_updHeader;
  Write := statusWriter_Write;
  WriteHeader := statusWriter_WriteHeader
}.

End StatusWriter.

(** ** [compressibleTypes] *)

(** MIME type prefixes that benefit from compression. *)
Definition compressibleTypes : list string :=
  [ "text/";
    "application/json";
    "application/javascript";
    "application/xml";
    "application/xhtml+xml";
    "image/svg+xml" ].

(** ** [*gzip.Writer] and [sync.Pool] *)

(** A compressor: whether it is bound to an output, the bytes fed to it
    since its last [Reset], whether it was closed, whether a write to its
    output failed. *)
Record gzipWriter := {
  gz_bound : bool;
  gz_input : list byte;
  gz_closed : bool;
  gz_err : bool
}.

(** [gzip.NewWriterLevel(nil, gzip.DefaultCompression)] *)
Definition gzipNewWriter : gzipWriter :=
  {| gz_bound := false; gz_input := []; gz_closed := false; gz_err := false |}.

(** The calls made on the pool and on compressors, in order. *)
Inductive poolOp :=
  | PoolGet
  | GzReset
  | GzWrite (b : list byte)
  | GzClose
  | PoolPut.

(** [*http.Request]: the fields the program reads. *)
Record Request := {
  Method : string;
  Path : string;
  ReqHeader : Header.t
}.

(** A line of the log: [log.Printf("%s %s %d %s", ...)]. *)
Record logLine := {
  log_method : string;
  log_path : string;
  log_status : Z;
  log_duration : Z
}.

(** The state outside the writers: [gzipWriterPool], the calls made on it,
    the clock and the log. *)
Record Env := {
  pool : list gzipWriter;
  poolOps : list poolOp;
  now : Z;
  logs : list logLine
}.

(** A handler's calls on its writer. *)
Inductive op :=
  | OpSet (key value : string)
  | OpAdd (key value : string)
  | OpDel (key : string)
  | OpWriteHeader (code : Z)
  | OpWrite (b : list byte).

(** [http.Handler]: [ServeHTTP(w, r)] for every kind of writer. *)
Definition Handler : Type :=
  forall W : Type, ResponseWriter W -> Request -> W * Env -> W * Env.

Section Handlers.
Context {W : Type} `{ResponseWriter W}.

Definition runOp (o : op) (w : W) : W :=
  match o with
  | OpSet k v => updHeader (Header.Set_ k v) w
  | OpAdd k v => updHeader (Header.Add k v) w
  | OpDel k => updHeader (Header.Del k) w
  | OpWriteHeader c => WriteHeader c w
  | OpWrite b => snd (Write b w)
  end.

Definition runOps (os : list op) (w : W) : W := fold_left (fun w o => runOp o w) os w.

(** Writes the chunks in order and stops at the first failed write. *)
Fixpoint writeChunks (cs : list (list byte)) (w : W) : bool * W :=
  match cs with
  | [] => (true, w)
  | c :: cs' =>
      let '((_, e), w') := Write c w in
      match e with
      | None => writeChunks cs' w'
      | Some _ => (false, w')
      end
  end.

End Handlers.

(** The base handler: the calls it makes for a request and the time it
    takes. *)
Record baseHandler := {
  bh_ops : Request -> list op;
  bh_took : Request -> Z
}.

Definition tick (d : Z) (e : Env) : Env :=
  {| pool := pool e; poolOps := poolOps e; now := now e + d; logs := logs e |}.

Definition serveBase (h : baseHandler) : Handler :=
  fun W _ r '(w, e) => (runOps (bh_ops h r) w, tick (bh_took h r) e).

(** ** [gzipResponseWriter] *)

Record gzipResponseWriter (W : Type) := {
  grw_ResponseWriter : W;
  grw_body : option (list byte);
  grw_code : Z;
  grw_wroteHeader : bool;
  grw_passthrough : bool
}.
Arguments grw_ResponseWriter {W} _.
Arguments grw_body {W} _.
Arguments grw_code {W} _.
Arguments grw_wroteHeader {W} _.
Arguments grw_passthrough {W} _.

(** [&gzipResponseWriter{ResponseWriter: w}] *)
Definition newGzipResponseWriter {W} (w : W) : gzipResponseWriter W :=
  {| grw_ResponseWriter := w;
     grw_body := None;
     grw_code := 0;
     grw_wroteHeader := false;
     grw_passthrough := false |}.

Definition logOp (o : poolOp) (e : Env) : Env :=
  {| pool := pool e; poolOps := (poolOps e ++ [o])%list; now := now e; logs := logs e |}.

(** [gzipWriterPool.Get()]: an instance of the pool, a new one when the
    pool has none. *)
Definition pool_Get (e : Env) : gzipWriter * Env :=
  let e' := logOp PoolGet e in
  match pool e with
  | [] => (gzipNewWriter, e')
  | gz :: rest =>
      (gz, {| pool := rest; poolOps := poolOps e'; now := now e'; logs := logs e' |})
  end.

(** [gzipWriterPool.Put(gz)] *)
Definition pool_Put (gz : gzipWriter) (e : Env) : Env :=
  let e' := logOp PoolPut e in
  {| pool := gz :: pool e'; poolOps := poolOps e'; now := now e'; logs := logs e' |}.

Section Server.

(** The libraries' tables: [unicode.ToLower] mapped over a string that is
    not ASCII, and the chunks a compressor writes to its output on a
    [Write] (from the bytes fed before and the new ones) and on [Close]
    (from all the bytes fed). *)
Variable unicodeLower : string -> string.
Variable gzEmitWrite : list byte -> list byte -> list (list byte).
Variable gzEmitClose : list byte -> list (list byte).

(** [func shouldCompress(contentType string) bool] *)
Fixpoint anyPrefix (ct : string) (prefixes : list string) : bool :=
  match prefixes with
  | [] => false
  | prefix :: rest =>
      if GoStrings.HasPrefix ct prefix then true else anyPrefix ct rest
  end.

Definition shouldCompress (contentType : string) : bool :=
  let ct := GoStrings.ToLower unicodeLower contentType in
  anyPrefix ct compressibleTypes.

Section Writers.
Context {W : Type} `{ResponseWriter W}.

(** [func (w *gzipResponseWriter) WriteHeader(code int)] *)
Definition gzipResponseWriter_WriteHeader (code : Z) (w : gzipResponseWriter W)
  : gzipResponseWriter W :=
  if grw_wroteHeader w then w
  else
    let ct := Header.Get (Header (grw_ResponseWriter w)) "Content-Type" in
    if shouldCompress ct then
      {| grw_ResponseWriter := grw_ResponseWriter w;
         grw_body := grw_body w;
         grw_code := code;
         grw_wroteHeader := true;
         grw_passthrough := grw_passthrough w |}
    else
      {| grw_ResponseWriter := WriteHeader code (grw_ResponseWriter w);
         grw_body := grw_body w;
         grw_code := code;
         grw_wroteHeader := true;
         grw_passthrough := true |}.

(** [func (w *gzipResponseWriter) Write(b []byte) (int, error)] *)
Definition gzipResponseWriter_Write (b : list byte) (w : gzipResponseWriter W)
  : (Z * error) * gzipResponseWriter W :=
  let w1 :=
    if negb (grw_wroteHeader w) then gzipResponseWriter_WriteHeader StatusOK w else w in
  if grw_passthrough w1 then
    let '(r, inner) := Write b (grw_ResponseWriter w1) in
    (r, {| grw_ResponseWriter := inner;
           grw_body := grw_body w1;
           grw_code := grw_code w1;
           grw_wroteHeader := grw_wroteHeader w1;
           grw_passthrough := grw_passthrough w1 |})
  else
    ((len b, None),
     {| grw_ResponseWriter := grw_ResponseWriter w1;
        grw_body := goAppend (grw_body w1) b;
        grw_code := grw_code w1;
        grw_wroteHeader := grw_wroteHeader w1;
        grw_passthrough := grw_passthrough w1 |}).

(** [Header()] is promoted from the embedded writer. *)
Definition gzipResponseWriter_updHeader (f : Header.t -> Header.t)
  (w : gzipResponseWriter W) : gzipResponseWriter W :=
  {| grw_ResponseWriter := updHeader f (grw_ResponseWriter w);
     grw_body := grw_body w;
     grw_code := grw_code w;
     grw_wroteHeader := grw_wroteHeader w;
     grw_passthrough := grw_passthrough w |}.

#[global] Instance gzipResponseWriter_ResponseWriter
  : ResponseWriter (gzipResponseWriter W) := {
  Header w := Header (grw_ResponseWriter w);
  updHeader := gzipResponseWriter_updHeader;
  Write := gzipResponseWriter_Write;
  WriteHeader := gzipResponseWriter_WriteHeader
}.

(** [gz.Reset(w)]: the compressor forgets what it was fed and is bound to
    the writer. *)
Definition gz_Reset (gz : gzipWriter) (e : Env) : gzipWriter * Env :=
  ({| gz_bound := true; gz_input := []; gz_closed := false; gz_err := false |},
   logOp GzReset e).

(** [gz.Write(p)] on a compressor bound to [w].  The program writes to a
    compressor it has just reset; one that is unbound, closed or failed
    writes nothing here. *)
Definition gz_Write (p : list byte) (gz : gzipWriter) (w : W) (e : Env)
  : gzipWriter * W * Env :=
  let e' := logOp (GzWrite p) e in
  if gz_err gz || gz_closed gz || negb (gz_bound gz) then (gz, w, e')
  else
    let '(ok, w') := writeChunks (gzEmitWrite (gz_input gz) p) w in
    ({| gz_bound := true;
        gz_input := (gz_input gz ++ p)%list;
        gz_closed := false;
        gz_err := negb ok |}, w', e').

(** [gz.Close()] on a compressor bound to [w]. *)
Definition gz_Close (gz : gzipWriter) (w : W) (e : Env) : gzipWriter * W * Env :=
  let e' := logOp GzClose e in
  if gz_err gz || gz_closed gz || negb (gz_bound gz) then (gz, w, e')
  else
    let '(ok, w') := writeChunks (gzEmitClose (gz_input gz)) w in
    ({| gz_bound := true;
        gz_input := gz_input gz;
        gz_closed := true;
        gz_err := negb ok |}, w', e').

(** The body of [gzipMiddleware] after the handler has returned: the
    buffered body is compressed and flushed. *)
Definition gzipFlush (grw : gzipResponseWriter W) (e : Env) : W * Env :=
  let w := grw_ResponseWriter grw in
  match grw_body grw with
  | Some body =>
      let w := updHeader (Header.Set_ "Content-Encoding" "gzip") w in
      let w := updHeader (Header.Del "Content-Length") w in
      let w := WriteHeader (grw_code grw) w in
      let '(gz, e) := pool_Get e in
      let '(gz, e) := gz_Reset gz e in
      let '(gz, w, e) := gz_Write body gz w e in
      let '(gz, w, e) := gz_Close gz w e in
      (w, pool_Put gz e)
  | None => (w, e)
  end.

End Writers.

(** [func gzipMiddleware(next http.Handler) http.Handler] *)
Definition gzipMiddleware (next : Handler) : Handler :=
  fun W RW r '(w, e) =>
    if negb (GoStrings.Contains (Header.Get (ReqHeader r) "Accept-Encoding") "gzip")
    then next W RW r (w, e)
    else
      let grw := newGzipResponseWriter w in
      let '(grw, e) := next (gzipResponseWriter W) _ r (grw, e) in
      gzipFlush grw e.

(** [func loggingMiddleware(next http.Handler) http.Handler] *)
Definition loggingMiddleware (next : Handler) : Handler :=
  fun W RW r '(w, e) =>
    let start := now e in
    let sw := {| sw_ResponseWriter := w; sw_status := StatusOK; sw_wroteHeader := false |} in
    let '(sw, e) := next (statusWriter W) _ r (sw, e) in
    (sw_ResponseWriter sw,
     {| pool := pool e;
        poolOps := poolOps e;
        now := now e;
        logs := (logs e ++ [ {| log_method := Method r;
                                log_path := Path r;
                                log_status := sw_status sw;
                                log_duration := now e - start |} ])%list |}).

(** The handler [main] installs, over a base handler. *)
Definition mainHandler (h : baseHandler) : Handler :=
  loggingMiddleware (gzipMiddleware (serveBase h)).

(** ** Reading a handler's calls *)

(** A call on the header map (neither [WriteHeader] nor [Write]). *)
Definition isHeaderOp (o : op) : bool :=
  match o with
  | OpSet _ _ | OpAdd _ _ | OpDel _ => true
  | OpWriteHeader _ | OpWrite _ => false
  end.

Definition isWriteHeaderOp (o : op) : bool :=
  match o with
  | OpWriteHeader _ => true
  | _ => false
  end.

(** The effect of a call on the header map. *)
Definition applyHeaderOp (h : Header.t) (o : op) : Header.t :=
  match o with
  | OpSet k v => Header.Set_ k v h
  | OpAdd k v => Header.Add k v h
  | OpDel k => Header.Del k h
  | OpWriteHeader _ | OpWrite _ => h
  end.

Definition headerAfter (h : Header.t) (os : list op) : Header.t :=
  fold_left applyHeaderOp os h.

(** The calls before the first [WriteHeader] or [Write], and that call with
    what follows it. *)
Fixpoint splitCommit (os : list op) : list op * option (op * list op) :=
  match os with
  | [] => ([], None)
  | o :: rest =>
      if isHeaderOp o then
        let '(p, c) := splitCommit rest in (o :: p, c)
      else ([], Some (o, rest))
  end.

(** The [Content-Type] of the writer when the handler commits the status,
    from the header map [h] the writer starts with; [None] when the
    handler neither sets a status nor writes. *)
Definition commitType (h : Header.t) (os : list op) : option string :=
  match splitCommit os with
  | (p, Some _) => Some (Header.Get (headerAfter h p) "Content-Type")
  | (_, None) => None
  end.

(** The status the handler commits: the code of a [WriteHeader], 200 for a
    [Write]. *)
Definition commitCode (os : list op) : option Z :=
  match splitCommit os with
  | (_, Some (OpWriteHeader c, _)) => Some c
  | (_, Some (_, _)) => Some StatusOK
  | (_, None) => None
  end.

(** The codes of the handler's [WriteHeader] calls, in order. *)
Fixpoint statusAttempts (os : list op) : list Z :=
  match os with
  | [] => []
  | OpWriteHeader c :: rest => c :: statusAttempts rest
  | _ :: rest => statusAttempts rest
  end.

(** The bytes the handler writes, in order. *)
Fixpoint written (os : list op) : list byte :=
  match os with
  | [] => []
  | OpWrite b :: rest => (b ++ written rest)%list
  | _ :: rest => written rest
  end.

(** The calls that reach the inner writer in pass-through mode: the
    committing call (a [Write] preceded by the implicit [WriteHeader 200]),
    then every later call but the [WriteHeader]s. *)
Definition passOps (os : list op) : list op :=
  match splitCommit os with
  | (p, None) => p
  | (p, Some (OpWrite b, rest)) =>
      (p ++ OpWriteHeader StatusOK :: OpWrite b
         :: List.filter (fun o => negb (isWriteHeaderOp o)) rest)%list
  | (p, Some (o, rest)) =>
      (p ++ o :: List.filter (fun o => negb (isWriteHeaderOp o)) rest)%list
  end.

(** The request accepts gzip: the test of [gzipMiddleware]. *)
Definition acceptsGzip (r : Request) : bool :=
  GoStrings.Contains (Header.Get (ReqHeader r) "Accept-Encoding") "gzip".

(** A writer whose header map is changed by [updHeader] only. *)
Class LawfulWriter (W : Type) `{ResponseWriter W} := {
  Header_updHeader : forall f (w : W), Header (updHeader f w) = f (Header w);
  Header_WriteHeader : forall c (w : W), Header (WriteHeader c w) = Header w;
  Header_Write : forall b (w : W), Header (snd (Write b w)) = Header w
}.

(** The bytes a compressor emits for a body fed in one [Write] and closed. *)
Definition gzEmit (body : list byte) : list (list byte) :=
  (gzEmitWrite [] body ++ gzEmitClose body)%list.

(** The buffer after the handler's calls in buffering mode. *)
Definition bufferAfter (s : option (list byte)) (os : list op) : option (list byte) :=
  fold_left (fun s o => match o with OpWrite b => goAppend s b | _ => s end) os s.

(** A writer whose writes never fail. *)
Class ReliableWriter (W : Type) `{ResponseWriter W} := {
  Write_ok : forall b (w : W), snd (fst (Write b w)) = None
}.

(** The calls [gzipFlush] makes on the real writer for a buffered body. *)
Definition flushOps (code : Z) (body : list byte) : list op :=
  (OpSet "Content-Encoding" "gzip"
   :: OpDel "Content-Length"
   :: OpWriteHeader code
   :: map OpWrite (gzEmit body))%list.

(** The calls that reach the real writer under [gzipMiddleware] for a
    request that accepts gzip, from the handler's calls and the header map
    [h0] the writer starts with. *)
Definition gzipOut (h0 : Header.t) (os : list op) : list op :=
  match splitCommit os with
  | (p, None) => p
  | (p, Some (o, rest)) =>
      if shouldCompress (Header.Get (headerAfter h0 p) "Content-Type") then
        (p ++ List.filter isHeaderOp rest
           ++ match bufferAfter None (o :: rest) with
              | Some body =>
                  flushOps (match o with OpWriteHeader c => c | _ => StatusOK end) body
              | None => []
              end)%list
      else passOps os
  end.

(** The middleware compresses: the handler commits with a compressible
    type and writes at least one byte. *)
Definition compresses (h0 : Header.t) (os : list op) : bool :=
  match commitType h0 os with
  | Some ct =>
      shouldCompress ct && match written os with [] => false | _ => true end
  | None => false
  end.

(** The calls a recorder notes for a handler's calls, from the header map
    [h] it has at the start. *)
Fixpoint callsOf (h : Header.t) (os : list op) : list call :=
  match os with
  | [] => []
  | OpWriteHeader c :: rest => CallWriteHeader c h :: callsOf h rest
  | OpWrite b :: rest => CallWrite b h :: callsOf h rest
  | o :: rest => callsOf (applyHeaderOp h o) rest
  end.

(** The environment after a flush that compresses: one instance leaves
    the pool and returns to it. *)
Definition envAfterFlush (body : list byte) (e : Env) : Env :=
  {| pool :=
       {| gz_bound := true; gz_input := body; gz_closed := true; gz_err := false |}
       :: tail (pool e);
     poolOps := (poolOps e ++ [PoolGet; GzReset; GzWrite body; GzClose; PoolPut])%list;
     now := now e;
     logs := logs e |}.

(** The handler commits with a compressible type and writes no byte: the
    decorator buffers, and the buffer is [nil] at the flush. *)
Definition emptyBuffered (h0 : Header.t) (os : list op) : bool :=
  match commitType h0 os with
  | Some ct =>
      shouldCompress ct && match written os with [] => true | _ => false end
  | None => false
  end.

(** The header map the real writer has at the flush of a compressed
    response: the handler's, with the encoding set and the length removed. *)
Definition flushHeader (h0 : Header.t) (os : list op) : Header.t :=
  Header.Del "Content-Length"
    (Header.Set_ "Content-Encoding" "gzip" (headerAfter h0 os)).

(** The call names the key of the header map. *)
Definition touches (key : string) (o : op) : bool :=
  match o with
  | OpSet k _ | OpAdd k _ | OpDel k => bool_decide (k = key)
  | OpWriteHeader _ | OpWrite _ => false
  end.

(** The header map noted with a call. *)
Definition callHeader (c : call) : Header.t :=
  match c with
  | CallWriteHeader _ h => h
  | CallWrite _ h => h
  end.

(** The decorator has committed and buffers. *)
Definition buffering {W} (w : gzipResponseWriter W) : bool :=
  grw_wroteHeader w && negb (grw_passthrough w).

(** The calls the compressor and the pool see in a flush that compresses. *)
Definition flushPoolOps (body : list byte) : list poolOp :=
  [PoolGet; GzReset; GzWrite body; GzClose; PoolPut].

(** A handler served on a recorder that starts with the header map [h0]
    and no call. *)
Definition serve (hd : Handler) (r : Request) (h0 : Header.t) (e : Env)
  : recorder * Env :=
  hd recorder _ r ({| rec_header := h0; rec_calls := [] |}, e).

(** The calls the recorder has noted when the handler returns. *)
Definition callsFor (hd : Handler) (r : Request) (h0 : Header.t) (e : Env)
  : list call :=
  rec_calls (fst (serve hd r h0 e)).

(** The response carries [Content-Encoding: gzip]: the header map the
    transport sends has the value. *)
Definition carriesGzip (cs : list call) : bool :=
  match sentHeader cs with
  | Some h => bool_decide (Header.Get h "Content-Encoding" = "gzip")
  | None => false
  end.

(** [s] starts with [prefix] when the case of the ASCII letters is
    ignored. *)
Fixpoint foldPrefix (s prefix : string) {struct prefix} : bool :=
  match prefix, s with
  | EmptyString, _ => true
  | String _ _, EmptyString => false
  | String a prefix', String c s' =>
      Ascii.eqb (GoStrings.lowerByte c) (GoStrings.lowerByte a) && foldPrefix s' prefix'
  end.

(** The state of the decorator when the handler returns, over a recorder
    that starts with the header map [h0]. *)
Definition decoratorAfter (h0 : Header.t) (os : list op) : gzipResponseWriter recorder :=
  runOps os (newGzipResponseWriter {| rec_header := h0; rec_calls := [] |}).

(** The calls that reach the writer [gzipMiddleware] was given. *)
Definition reaching (r : Request) (h0 : Header.t) (os : list op) : list op :=
  if acceptsGzip r then gzipOut h0 os else os.

(** A request for a missing page that accepts gzip, and a handler that
    answers it with a compressible type, the status 404 and no body. *)
Definition missingRequest : Request :=
  {| Method := "GET";
     Path := "/missing";
     ReqHeader := Header.Set_ "Accept-Encoding" "gzip" ∅ |}.

Definition missingHandler : baseHandler :=
  {| bh_ops := fun _ => [OpSet "Content-Type" "text/plain"; OpWriteHeader 404];
     bh_took := fun _ => 1 |}.

Definition emptyEnv : Env := {| pool := []; poolOps := []; now := 0; logs := [] |}.

(** A [statusWriter] over an empty recorder, as [loggingMiddleware] makes
    it. *)
Definition freshStatusWriter : statusWriter recorder :=
  {| sw_ResponseWriter := newRecorder; sw_status := StatusOK; sw_wroteHeader := false |}.

(** The server handles requests one after the other: each gets a fresh
    writer with the header map [h0]; the pool, the clock and the log go
    from one request to the next.  The responses are the calls each
    writer has noted. *)
Fixpoint serveAll (h : baseHandler) (h0 : Header.t) (rs : list Request) (e : Env)
  : list (list call) * Env :=
  match rs with
  | [] => ([], e)
  | r :: rs' =>
      let '(w, e1) := serve (mainHandler h) r h0 e in
      let '(outs, e2) := serveAll h h0 rs' e1 in
      (rec_calls w :: outs, e2)
  end.


(** The fields of a decorator agree: pass-through mode and a buffer are
    there after a commit only, and never together. *)
Definition grwConsistent {W} (w : gzipResponseWriter W) : Prop :=
  (grw_passthrough w = true -> grw_wroteHeader w = true /\ grw_body w = None) /\
  (grw_wroteHeader w = false -> grw_body w = None /\ grw_code w = 0).


(** ** Concrete libraries and inputs, for the examples *)

(** A lowering of strings that are not ASCII: they are left as they are. *)
Definition keepLower (s : string) : string := s.

(** A compressor that stores: two magic bytes before the first bytes fed,
    then the bytes as they are, and nothing on [Close]. *)
Definition storedWrite (before p : list byte) : list (list byte) :=
  match before with
  | [] => [[x1f; x8b]; p]
  | _ :: _ => [p]
  end.

Definition storedClose (fed : list byte) : list (list byte) := [].

Definition storedGunzip (s : list byte) : option (list byte) :=
  match s with
  | x1f :: x8b :: rest => Some rest
  | _ => None
  end.

(** Scenario A: [GET /index.html] with [Accept-Encoding: gzip], answered
    with 200, [text/html] and a body. *)
Definition htmlRequest : Request :=
  {| Method := "GET";
     Path := "/index.html";
     ReqHeader := Header.Set_ "Accept-Encoding" "gzip" ∅ |}.

Definition htmlBody : list byte := list_byte_of_string "<html></html>".

Definition htmlHandler : baseHandler :=
  {| bh_ops := fun _ =>
       [OpSet "Content-Type" "text/html"; OpSet "Content-Length" "13";
        OpWriteHeader 200; OpWrite htmlBody];
     bh_took := fun _ => 2 |}.

(** Scenario B: [GET /logo.png] with [Accept-Encoding: gzip], answered
    with 200, [image/png] and a body. *)
Definition pngRequest : Request :=
  {| Method := "GET";
     Path := "/logo.png";
     ReqHeader := Header.Set_ "Accept-Encoding" "gzip, deflate" ∅ |}.

Definition pngBody : list byte := [x89; x50; x4e; x47].

Definition pngHandler : baseHandler :=
  {| bh_ops := fun _ =>
       [OpSet "Content-Type" "image/png"; OpSet "Content-Length" "4";
        OpWriteHeader 200; OpWrite pngBody];
     bh_took := fun _ => 1 |}.

(** Scenario C: a missing page answered with 404, [text/plain] and a body,
    for a request that accepts gzip. *)
Definition notFoundBody : list byte := list_byte_of_string "not found".

Definition notFoundHandler : baseHandler :=
  {| bh_ops := fun _ =>
       [OpSet "Content-Type" "text/plain"; OpWriteHeader 404; OpWrite notFoundBody];
     bh_took := fun _ => 1 |}.

(** A handler that writes before it sets a status. *)
Definition lateStatusHandler : baseHandler :=
  {| bh_ops := fun _ =>
       [OpSet "Content-Type" "image/png"; OpWrite pngBody; OpWriteHeader 500];
     bh_took := fun _ => 1 |}.

(** A redirect: a status and no [Content-Type]. *)
Definition redirectHandler : baseHandler :=
  {| bh_ops := fun _ => [OpSet "Location" "/"; OpWriteHeader 301];
     bh_took := fun _ => 1 |}.

(** A handler that touches the header map only. *)
Definition headerOnlyHandler : baseHandler :=
  {| bh_ops := fun _ => [OpSet "Cache-Control" "no-store"];
     bh_took := fun _ => 1 |}.

(** A handler that sets a status twice. *)
Definition twoStatusHandler : baseHandler :=
  {| bh_ops := fun _ =>
       [OpSet "Content-Type" "image/png"; OpWriteHeader 404; OpWriteHeader 500;
        OpWrite pngBody];
     bh_took := fun _ => 1 |}.

(** Scenario D: the request of scenario A without [Accept-Encoding]. *)
Definition plainRequest : Request :=
  {| Method := "GET"; Path := "/index.html"; ReqHeader := ∅ |}.

(** ** Lemmas on the handler's calls *)

Lemma runOps_app {W} `{ResponseWriter W} (os1 os2 : list op) (w : W) :
  runOps (os1 ++ os2)%list w = runOps os2 (runOps os1 w).
Proof. unfold runOps. apply fold_left_app. Qed.

Lemma splitCommit_app (os : list op) :
  os = (fst (splitCommit os)
        ++ match snd (splitCommit os) with
           | None => []
           | Some (o, rest) => o :: rest
           end)%list.
Proof.
  induction os as [|o os IH]; simpl; [reflexivity|].
  destruct (isHeaderOp o) eqn:Ho; simpl; [|reflexivity].
  destruct (splitCommit os) as [p c]; simpl in *. now f_equal.
Qed.

Lemma splitCommit_prefix (os : list op) :
  forallb isHeaderOp (fst (splitCommit os)) = true.
Proof.
  induction os as [|o os IH]; simpl; [reflexivity|].
  destruct (isHeaderOp o) eqn:Ho; simpl; [|reflexivity].
  destruct (splitCommit os) as [p c]; simpl in *. now rewrite Ho.
Qed.

Lemma splitCommit_commit (os : list op) o rest :
  snd (splitCommit os) = Some (o, rest) -> isHeaderOp o = false.
Proof.
  induction os as [|o' os IH]; simpl; [discriminate|].
  destruct (isHeaderOp o') eqn:Ho.
  - destruct (splitCommit os) as [p c]; simpl in *. exact IH.
  - simpl. intros [= <- <-]. exact Ho.
Qed.

Lemma goAppend_default (s : option (list byte)) (b : list byte) :
  default [] (goAppend s b) = (default [] s ++ b)%list.
Proof. destruct b; simpl; [now rewrite app_nil_r | reflexivity]. Qed.

Lemma bufferAfter_default (s : option (list byte)) (os : list op) :
  default [] (bufferAfter s os) = (default [] s ++ written os)%list.
Proof.
  revert s. induction os as [|o os IH]; intros s; simpl.
  - now rewrite app_nil_r.
  - destruct o; try apply IH.
    unfold bufferAfter in *. simpl. rewrite IH, goAppend_default.
    now rewrite <- app_assoc.
Qed.

Lemma goAppend_None_iff (s : option (list byte)) (b : list byte) :
  goAppend s b = None <-> s = None /\ b = [].
Proof.
  destruct b; simpl; split.
  - intros ->. now split.
  - now intros [-> _].
  - discriminate.
  - intros [_ [=]].
Qed.

Lemma bufferAfter_None_iff (s : option (list byte)) (os : list op) :
  bufferAfter s os = None <-> s = None /\ written os = [].
Proof.
  revert s. induction os as [|o os IH]; intros s; simpl.
  - tauto.
  - destruct o; try apply IH.
    unfold bufferAfter in *. simpl. rewrite IH, goAppend_None_iff.
    split.
    + intros [[-> ->] ->]. now split.
    + intros [-> Hb]. apply app_eq_nil in Hb as [-> ->]. now split.
Qed.

Lemma bufferAfter_nil (os : list op) :
  bufferAfter None os = match written os with [] => None | bs => Some bs end.
Proof.
  destruct (written os) eqn:Hw.
  - apply bufferAfter_None_iff. now split.
  - destruct (bufferAfter None os) eqn:Hb.
    + pose proof (bufferAfter_default None os) as Hd.
      rewrite Hb, Hw in Hd. simpl in Hd. now subst.
    + apply bufferAfter_None_iff in Hb as [_ Hb]. congruence.
Qed.

(** ** The decorator after its commit *)

Section Committed.
Context {W : Type} `{ResponseWriter W}.

(** In pass-through mode the inner writer receives every call but the
    [WriteHeader]s; the decorator's own fields stay. *)
Lemma grw_runOps_passthrough (os : list op) (w : gzipResponseWriter W) :
  grw_wroteHeader w = true ->
  grw_passthrough w = true ->
  runOps os w =
  {| grw_ResponseWriter :=
       runOps (List.filter (fun o => negb (isWriteHeaderOp o)) os) (grw_ResponseWriter w);
     grw_body := grw_body w;
     grw_code := grw_code w;
     grw_wroteHeader := true;
     grw_passthrough := true |}.
Proof.
  revert w. induction os as [|o os IH]; intros [i b c wh pt] Hw Hp;
    simpl in *; subst.
  - reflexivity.
  - destruct o; simpl; unfold runOps in *; simpl;
      try (rewrite IH by reflexivity; reflexivity).
    unfold gzipResponseWriter_Write; simpl.
    destruct (Write b0 i) as [res i'] eqn:Hwr; simpl.
    now rewrite IH by reflexivity.
Qed.

(** In buffering mode the inner writer receives the calls on the header
    map only, and the written bytes go to the buffer. *)
Lemma grw_runOps_buffering (os : list op) (w : gzipResponseWriter W) :
  grw_wroteHeader w = true ->
  grw_passthrough w = false ->
  runOps os w =
  {| grw_ResponseWriter := runOps (List.filter isHeaderOp os) (grw_ResponseWriter w);
     grw_body := bufferAfter (grw_body w) os;
     grw_code := grw_code w;
     grw_wroteHeader := true;
     grw_passthrough := false |}.
Proof.
  revert w. induction os as [|o os IH]; intros [i b c wh pt] Hw Hp;
    simpl in *; subst.
  - reflexivity.
  - destruct o; simpl; unfold runOps, bufferAfter in *; simpl;
      rewrite IH by reflexivity; reflexivity.
Qed.

(** Before the commit the calls on the header map go to the inner writer. *)
Lemma grw_runOps_headers (p : list op) (w : gzipResponseWriter W) :
  forallb isHeaderOp p = true ->
  runOps p w =
  {| grw_ResponseWriter := runOps p (grw_ResponseWriter w);
     grw_body := grw_body w;
     grw_code := grw_code w;
     grw_wroteHeader := grw_wroteHeader w;
     grw_passthrough := grw_passthrough w |}.
Proof.
  revert w. induction p as [|o p IH]; intros [i b c wh pt] Hp; simpl in *.
  - reflexivity.
  - apply andb_prop in Hp as [Ho Hp].
    destruct o; try discriminate; unfold runOps in *; simpl;
      rewrite IH by assumption; reflexivity.
Qed.

End Committed.

Section Lawful.
Context {W : Type} `{LawfulWriter W}.

Lemma Header_runOp (o : op) (w : W) : Header (runOp o w) = applyHeaderOp (Header w) o.
Proof.
  destruct o; simpl;
    auto using Header_updHeader, Header_WriteHeader, Header_Write.
Qed.

Lemma Header_runOps (os : list op) (w : W) :
  Header (runOps os w) = headerAfter (Header w) os.
Proof.
  revert w. induction os as [|o os IH]; intros w; [reflexivity|].
  unfold runOps, headerAfter in *. simpl. now rewrite IH, Header_runOp.
Qed.

(** The decorator after the handler's calls, from a fresh decorator over
    [w0]: uncommitted, buffering, or in pass-through mode. *)
Lemma grw_run (os : list op) (w0 : W) :
  runOps os (newGzipResponseWriter w0) =
  match splitCommit os with
  | (p, None) =>
      {| grw_ResponseWriter := runOps p w0;
         grw_body := None;
         grw_code := 0;
         grw_wroteHeader := false;
         grw_passthrough := false |}
  | (p, Some (o, rest)) =>
      if shouldCompress (Header.Get (headerAfter (Header w0) p) "Content-Type")
      then
        {| grw_ResponseWriter := runOps (List.filter isHeaderOp rest) (runOps p w0);
           grw_body := bufferAfter None (o :: rest);
           grw_code := match o with OpWriteHeader c => c | _ => StatusOK end;
           grw_wroteHeader := true;
           grw_passthrough := false |}
      else
        {| grw_ResponseWriter := runOps (passOps os) w0;
           grw_body := None;
           grw_code := match o with OpWriteHeader c => c | _ => StatusOK end;
           grw_wroteHeader := true;
           grw_passthrough := true |}
  end.
Proof.
  pose proof (splitCommit_app os) as Happ.
  pose proof (splitCommit_prefix os) as Hpre.
  pose proof (splitCommit_commit os) as Hcom.
  unfold passOps.
  destruct (splitCommit os) as [p [[o rest]|]]; simpl in *.
  - specialize (Hcom o rest eq_refl).
    rewrite Happ at 1. rewrite runOps_app, (grw_runOps_headers p) by assumption.
    simpl. rewrite <- (Header_runOps p w0).
    change (runOps (o :: rest) ?w) with (runOps rest (runOp o w)).
    destruct o; try discriminate; simpl.
    + unfold gzipResponseWriter_WriteHeader; simpl.
      destruct (shouldCompress _) eqn:Hsc.
      * rewrite grw_runOps_buffering by reflexivity. reflexivity.
      * rewrite grw_runOps_passthrough by reflexivity. simpl.
        now rewrite runOps_app.
    + unfold gzipResponseWriter_Write, gzipResponseWriter_WriteHeader; simpl.
      destruct (shouldCompress _) eqn:Hsc; simpl.
      * rewrite grw_runOps_buffering by reflexivity. reflexivity.
      * destruct (Write b (WriteHeader StatusOK (runOps p w0))) as [res i'] eqn:Hwr.
        simpl. rewrite grw_runOps_passthrough by reflexivity. simpl.
        rewrite runOps_app.
        change (runOps (?a :: ?b :: ?l) ?w) with (runOps l (runOp b (runOp a w))).
        simpl. now rewrite Hwr.
  - rewrite app_nil_r in Happ. rewrite Happ at 1.
    now rewrite (grw_runOps_headers p) by assumption.
Qed.

End Lawful.

(** ** The writers of the program are lawful and reliable *)

#[global] Instance recorder_Lawful : LawfulWriter recorder.
Proof. split; reflexivity. Qed.

#[global] Instance recorder_Reliable : ReliableWriter recorder.
Proof. split; reflexivity. Qed.

#[global] Instance statusWriter_Lawful {W} `{LawfulWriter W} : LawfulWriter (statusWriter W).
Proof.
  split; simpl.
  - intros f w. apply Header_updHeader.
  - intros c w. unfold statusWriter_WriteHeader. simpl.
    destruct (sw_wroteHeader w); simpl; apply Header_WriteHeader.
  - intros b w. unfold statusWriter_Write.
    pose proof (Header_Write b (sw_ResponseWriter w)) as Hw.
    destruct (Write b (sw_ResponseWriter w)) as [res i]. exact Hw.
Qed.

#[global] Instance statusWriter_Reliable {W} `{ReliableWriter W} : ReliableWriter (statusWriter W).
Proof.
  split. intros b w. simpl. unfold statusWriter_Write.
  pose proof (Write_ok b (sw_ResponseWriter w)) as Hw.
  destruct (Write b (sw_ResponseWriter w)) as [res i]. exact Hw.
Qed.

Lemma writeChunks_reliable {W} `{ReliableWriter W} (cs : list (list byte)) (w : W) :
  writeChunks cs w = (true, runOps (map OpWrite cs) w).
Proof.
  revert w. induction cs as [|c cs IH]; intros w; [reflexivity|].
  simpl. pose proof (Write_ok c w) as Hok.
  unfold runOps in *. simpl.
  destruct (Write c w) as [[n e] w']. simpl in *. subst e. apply IH.
Qed.

Lemma recorder_runOps (os : list op) (w : recorder) :
  runOps os w =
  {| rec_header := headerAfter (rec_header w) os;
     rec_calls := (rec_calls w ++ callsOf (rec_header w) os)%list |}.
Proof.
  revert w. induction os as [|o os IH]; intros [h cs]; simpl.
  - now rewrite app_nil_r.
  - unfold runOps, headerAfter in *.
    destruct o; simpl; rewrite IH; simpl; try reflexivity;
      now rewrite <- app_assoc.
Qed.

(** The status a [statusWriter] holds after a handler's calls: the code of
    the first [WriteHeader] it receives, when it had none before. *)
Lemma statusWriter_runOps {W} `{ResponseWriter W} (os : list op) (w : statusWriter W) :
  runOps os w =
  {| sw_ResponseWriter := runOps os (sw_ResponseWriter w);
     sw_status :=
       if sw_wroteHeader w then sw_status w
       else hd (sw_status w) (statusAttempts os);
     sw_wroteHeader := sw_wroteHeader w || existsb isWriteHeaderOp os |}.
Proof.
  revert w. induction os as [|o os IH]; intros [i s wh]; simpl.
  - destruct wh; now rewrite ?orb_false_r.
  - unfold runOps in *.
    destruct o; simpl; try (rewrite IH; reflexivity).
    + rewrite IH. simpl. destruct wh; reflexivity.
    + unfold statusWriter_Write. simpl.
      destruct (Write b i) as [res i'] eqn:Hwr. now rewrite IH.
Qed.

(** ** [gzipMiddleware] over a base handler *)

Section Middleware.
Context {W : Type} `{ResponseWriter W} `{!LawfulWriter W} `{!ReliableWriter W}.

Lemma gzipFlush_run (grw : gzipResponseWriter W) (e : Env) :
  gzipFlush grw e =
  match grw_body grw with
  | Some body =>
      (runOps (flushOps (grw_code grw) body) (grw_ResponseWriter grw),
       envAfterFlush body e)
  | None => (grw_ResponseWriter grw, e)
  end.
Proof.
  unfold gzipFlush. destruct (grw_body grw) as [body|]; [|reflexivity].
  unfold pool_Get, gz_Reset, gz_Write, gz_Close, pool_Put, flushOps, gzEmit.
  destruct e as [pl po nw lg]. simpl.
  destruct pl as [|gz0 rest]; simpl;
    rewrite writeChunks_reliable; simpl;
    rewrite writeChunks_reliable; simpl;
    rewrite map_app, runOps_app; unfold envAfterFlush, logOp; simpl;
    repeat rewrite <- app_assoc; reflexivity.
Qed.

Lemma written_app (os1 os2 : list op) :
  written (os1 ++ os2) = (written os1 ++ written os2)%list.
Proof.
  induction os1 as [|o os1 IH]; [reflexivity|].
  destruct o; simpl; rewrite ?IH; try reflexivity. now rewrite app_assoc.
Qed.

Lemma written_headers (p : list op) :
  forallb isHeaderOp p = true -> written p = [].
Proof.
  induction p as [|o p IH]; [reflexivity|]. simpl.
  intros Hp. apply andb_prop in Hp as [Ho Hp].
  destruct o; try discriminate; auto.
Qed.

Lemma written_splitCommit (os : list op) :
  written os =
  match snd (splitCommit os) with
  | Some (o, rest) => written (o :: rest)
  | None => []
  end.
Proof.
  rewrite (splitCommit_app os) at 1. rewrite written_app.
  rewrite (written_headers _ (splitCommit_prefix os)).
  now destruct (snd (splitCommit os)) as [[o rest]|].
Qed.

(** A request that accepts gzip: the real writer receives [gzipOut], and
    the pool is used exactly when the middleware compresses. *)
Lemma gzipMiddleware_accept (h : baseHandler) (r : Request) (w : W) (e : Env) :
  acceptsGzip r = true ->
  gzipMiddleware (serveBase h) W _ r (w, e) =
  (runOps (gzipOut (Header w) (bh_ops h r)) w,
   if compresses (Header w) (bh_ops h r)
   then envAfterFlush (written (bh_ops h r)) (tick (bh_took h r) e)
   else tick (bh_took h r) e).
Proof.
  intros Hacc. unfold gzipMiddleware, acceptsGzip in *. rewrite Hacc. simpl.
  rewrite grw_run, gzipFlush_run.
  unfold gzipOut, compresses, commitType.
  rewrite (written_splitCommit (bh_ops h r)).
  destruct (splitCommit (bh_ops h r)) as [p [[o rest]|]];
    cbn [grw_body grw_code grw_ResponseWriter fst snd].
  - destruct (shouldCompress _);
      cbn [grw_body grw_code grw_ResponseWriter fst snd andb].
    + rewrite bufferAfter_nil.
      destruct (written (o :: rest)) eqn:Hw.
      * now rewrite app_nil_r, runOps_app.
      * rewrite !runOps_app. reflexivity.
    + reflexivity.
  - reflexivity.
Qed.

(** A request that does not accept gzip: the handler runs on the writer
    itself. *)
Lemma gzipMiddleware_refuse (next : Handler) (r : Request) (w : W) (e : Env) :
  acceptsGzip r = false ->
  gzipMiddleware next W _ r (w, e) = next W _ r (w, e).
Proof. intros Hacc. unfold gzipMiddleware, acceptsGzip in *. now rewrite Hacc. Qed.

End Middleware.

(** ** What the recorder notes *)

Lemma callsOf_app (h : Header.t) (os1 os2 : list op) :
  callsOf h (os1 ++ os2) = (callsOf h os1 ++ callsOf (headerAfter h os1) os2)%list.
Proof.
  revert h. induction os1 as [|o os1 IH]; intros h; [reflexivity|].
  unfold headerAfter in *. destruct o; simpl; rewrite IH; reflexivity.
Qed.

Lemma callsOf_headers (h : Header.t) (p : list op) :
  forallb isHeaderOp p = true -> callsOf h p = [].
Proof.
  revert h. induction p as [|o p IH]; intros h; [reflexivity|]. simpl.
  intros Hp. apply andb_prop in Hp as [Ho Hp].
  destruct o; try discriminate; simpl; auto.
Qed.

Lemma headerAfter_app (h : Header.t) (os1 os2 : list op) :
  headerAfter h (os1 ++ os2) = headerAfter (headerAfter h os1) os2.
Proof. unfold headerAfter. apply fold_left_app. Qed.

Lemma headerAfter_filter (h : Header.t) (os : list op) :
  headerAfter h (List.filter isHeaderOp os) = headerAfter h os.
Proof.
  revert h. induction os as [|o os IH]; intros h; [reflexivity|].
  unfold headerAfter in *. destruct o; simpl; apply IH.
Qed.

Lemma forallb_filter_header (os : list op) :
  forallb isHeaderOp (List.filter isHeaderOp os) = true.
Proof.
  induction os as [|o os IH]; [reflexivity|].
  destruct o; simpl; auto.
Qed.

Lemma sentBody_callsOf (h : Header.t) (os : list op) :
  sentBody (callsOf h os) = written os.
Proof.
  revert h. induction os as [|o os IH]; intros h; [reflexivity|].
  destruct o; simpl; rewrite ?IH; reflexivity.
Qed.

Lemma written_filter (os : list op) :
  written (List.filter (fun o => negb (isWriteHeaderOp o)) os) = written os.
Proof.
  induction os as [|o os IH]; [reflexivity|].
  destruct o; simpl; rewrite ?IH; reflexivity.
Qed.

Lemma statusAttempts_filter (os : list op) :
  statusAttempts (List.filter (fun o => negb (isWriteHeaderOp o)) os) = [].
Proof.
  induction os as [|o os IH]; [reflexivity|].
  destruct o; simpl; rewrite ?IH; reflexivity.
Qed.

Lemma statusAttempts_app (os1 os2 : list op) :
  statusAttempts (os1 ++ os2) = (statusAttempts os1 ++ statusAttempts os2)%list.
Proof.
  induction os1 as [|o os1 IH]; [reflexivity|].
  destruct o; simpl; rewrite ?IH; reflexivity.
Qed.

Lemma statusAttempts_headers (p : list op) :
  forallb isHeaderOp p = true -> statusAttempts p = [].
Proof.
  induction p as [|o p IH]; [reflexivity|]. simpl.
  intros Hp. apply andb_prop in Hp as [Ho Hp].
  destruct o; try discriminate; auto.
Qed.

Lemma callsOf_flushOps (h : Header.t) (code : Z) (body : list byte) :
  callsOf h (flushOps code body) =
  let hf := Header.Del "Content-Length" (Header.Set_ "Content-Encoding" "gzip" h) in
  CallWriteHeader code hf :: map (fun c => CallWrite c hf) (gzEmit body).
Proof.
  unfold flushOps. simpl. f_equal.
  generalize (Header.Del "Content-Length" (Header.Set_ "Content-Encoding" "gzip" h)).
  intros hf. induction (gzEmit body) as [|c cs IH]; simpl; [reflexivity|].
  now rewrite IH.
Qed.

Lemma sentBody_chunks (hf : Header.t) (cs : list (list byte)) :
  sentBody (map (fun c => CallWrite c hf) cs) = concat cs.
Proof. induction cs as [|c cs IH]; simpl; [reflexivity|]. now rewrite IH. Qed.

Lemma splitCommit_spec (os : list op) :
  let '(p, c) := splitCommit os in
  forallb isHeaderOp p = true /\
  match c with
  | None => os = p
  | Some (o, rest) => os = (p ++ o :: rest)%list /\ isHeaderOp o = false
  end.
Proof.
  pose proof (splitCommit_app os) as Happ.
  pose proof (splitCommit_prefix os) as Hpre.
  pose proof (splitCommit_commit os) as Hcom.
  destruct (splitCommit os) as [p [[o rest]|]]; simpl in *.
  - split; [assumption|]. split; [assumption|]. now apply (Hcom o rest).
  - split; [assumption|]. now rewrite app_nil_r in Happ.
Qed.

Lemma headerAfter_commit (h : Header.t) (p : list op) (o : op) (rest : list op) :
  isHeaderOp o = false ->
  headerAfter h (p ++ o :: rest) = headerAfter (headerAfter h p) rest.
Proof.
  intros Ho. rewrite headerAfter_app. unfold headerAfter at 1. simpl.
  destruct o; try discriminate; reflexivity.
Qed.

(** The calls noted when the middleware compresses: the status with the
    flush header, then the compressor's chunks. *)
Lemma gzipOut_calls_compress (h0 : Header.t) (os : list op) :
  compresses h0 os = true ->
  callsOf h0 (gzipOut h0 os) =
  CallWriteHeader (default StatusOK (commitCode os)) (flushHeader h0 os)
  :: map (fun c => CallWrite c (flushHeader h0 os)) (gzEmit (written os)).
Proof.
  unfold compresses, commitType, gzipOut, commitCode, flushHeader.
  pose proof (splitCommit_spec os) as Hs.
  pose proof (written_splitCommit os) as Hw.
  destruct (splitCommit os) as [p [[o rest]|]]; [|discriminate].
  destruct Hs as [Hp [Hos Ho]]. cbn [snd] in Hw.
  destruct (shouldCompress _); [|discriminate].
  rewrite bufferAfter_nil, <- Hw.
  destruct (written os) as [|b0 bs] eqn:Hwo; [discriminate|]. intros _.
  rewrite app_assoc, callsOf_app, callsOf_flushOps. cbv zeta.
  rewrite callsOf_app, (callsOf_headers _ p Hp).
  rewrite (callsOf_headers _ _ (forallb_filter_header rest)).
  rewrite headerAfter_app, headerAfter_filter.
  replace (headerAfter h0 os) with (headerAfter (headerAfter h0 p) rest)
    by (rewrite Hos; symmetry; now apply headerAfter_commit).
  simpl. destruct o; try discriminate; reflexivity.
Qed.

(** The handler commits with a compressible type and writes nothing: the
    real writer receives the calls on the header map and nothing else. *)
Lemma gzipOut_emptyBuffered (h0 : Header.t) (os : list op) :
  emptyBuffered h0 os = true ->
  gzipOut h0 os = List.filter isHeaderOp os.
Proof.
  unfold emptyBuffered, commitType, gzipOut.
  pose proof (splitCommit_spec os) as Hs.
  pose proof (written_splitCommit os) as Hw.
  destruct (splitCommit os) as [p [[o rest]|]]; [|discriminate].
  destruct Hs as [Hp [Hos Ho]]. cbn [snd] in Hw.
  destruct (shouldCompress _); [|discriminate].
  rewrite bufferAfter_nil, <- Hw.
  destruct (written os) as [|b0 bs] eqn:Hwo; [|discriminate]. intros _.
  rewrite app_nil_r.
  replace (List.filter isHeaderOp os) with (List.filter isHeaderOp (p ++ o :: rest))
    by now rewrite Hos.
  rewrite List.filter_app. simpl. rewrite Ho.
  f_equal. clear -Hp. induction p as [|o' p IH]; [reflexivity|].
  simpl in *. apply andb_prop in Hp as [Ho' Hp]. rewrite Ho'. now rewrite <- IH.
Qed.

Lemma gzipOut_passthrough (h0 : Header.t) (os : list op) (ct : string) :
  commitType h0 os = Some ct ->
  shouldCompress ct = false ->
  gzipOut h0 os = passOps os.
Proof.
  unfold commitType, gzipOut, passOps.
  destruct (splitCommit os) as [p [[o rest]|]]; [|discriminate].
  intros [= <-] Hsc. now rewrite Hsc.
Qed.

Lemma gzipOut_uncommitted (h0 : Header.t) (os : list op) :
  commitType h0 os = None -> gzipOut h0 os = os.
Proof.
  unfold commitType, gzipOut.
  pose proof (splitCommit_spec os) as Hs.
  destruct (splitCommit os) as [p [[o rest]|]]; [discriminate|].
  now destruct Hs as [_ ->].
Qed.

Lemma splitCommit_build (p : list op) (o : op) (rest : list op) :
  forallb isHeaderOp p = true ->
  isHeaderOp o = false ->
  splitCommit (p ++ o :: rest) = (p, Some (o, rest)).
Proof.
  intros Hp Ho. induction p as [|o' p IH]; simpl in *.
  - now rewrite Ho.
  - apply andb_prop in Hp as [Ho' Hp]. rewrite Ho', (IH Hp). reflexivity.
Qed.

Lemma splitCommit_headers (p : list op) :
  forallb isHeaderOp p = true -> splitCommit p = (p, None).
Proof.
  induction p as [|o p IH]; [reflexivity|]. simpl.
  intros Hp. apply andb_prop in Hp as [Ho Hp]. now rewrite Ho, (IH Hp).
Qed.

Lemma splitCommit_passOps (os : list op) :
  splitCommit (passOps os) =
  match splitCommit os with
  | (p, None) => (p, None)
  | (p, Some (OpWrite b, rest)) =>
      (p, Some (OpWriteHeader StatusOK,
                OpWrite b :: List.filter (fun o => negb (isWriteHeaderOp o)) rest))
  | (p, Some (o, rest)) =>
      (p, Some (o, List.filter (fun o => negb (isWriteHeaderOp o)) rest))
  end.
Proof.
  unfold passOps. pose proof (splitCommit_spec os) as Hs.
  destruct (splitCommit os) as [p [[o rest]|]].
  - destruct Hs as [Hp [_ Ho]].
    destruct o; try discriminate; now apply splitCommit_build.
  - destruct Hs as [Hp _]. now apply splitCommit_headers.
Qed.

Lemma callsOf_split (h : Header.t) (os : list op) :
  callsOf h os =
  match splitCommit os with
  | (p, Some (o, rest)) => callsOf (headerAfter h p) (o :: rest)
  | (_, None) => []
  end.
Proof.
  pose proof (splitCommit_spec os) as Hs.
  destruct (splitCommit os) as [p [[o rest]|]].
  - destruct Hs as [Hp [Hos Ho]]. rewrite Hos at 1.
    now rewrite callsOf_app, (callsOf_headers _ p Hp).
  - destruct Hs as [Hp Hos]. subst p. now apply callsOf_headers.
Qed.

Lemma sentStatus_callsOf (h : Header.t) (os : list op) :
  sentStatus (callsOf h os) = commitCode os.
Proof.
  rewrite callsOf_split. unfold commitCode.
  pose proof (splitCommit_spec os) as Hs.
  destruct (splitCommit os) as [p [[o rest]|]]; [|reflexivity].
  destruct Hs as [_ [_ Ho]]. destruct o; try discriminate; reflexivity.
Qed.

Lemma sentHeader_callsOf (h : Header.t) (os : list op) :
  sentHeader (callsOf h os) =
  match splitCommit os with
  | (p, Some _) => Some (headerAfter h p)
  | (_, None) => None
  end.
Proof.
  rewrite callsOf_split.
  pose proof (splitCommit_spec os) as Hs.
  destruct (splitCommit os) as [p [[o rest]|]]; [|reflexivity].
  destruct Hs as [_ [_ Ho]]. destruct o; try discriminate; reflexivity.
Qed.

Lemma commitCode_passOps (os : list op) : commitCode (passOps os) = commitCode os.
Proof.
  unfold commitCode. rewrite splitCommit_passOps.
  destruct (splitCommit os) as [p [[o rest]|]]; [|reflexivity].
  destruct o; reflexivity.
Qed.

Lemma written_passOps (os : list op) : written (passOps os) = written os.
Proof.
  unfold passOps. pose proof (splitCommit_spec os) as Hs.
  destruct (splitCommit os) as [p [[o rest]|]].
  - destruct Hs as [Hp [Hos Ho]]. rewrite Hos.
    destruct o; try discriminate;
      rewrite !written_app; simpl; now rewrite written_filter.
  - now destruct Hs as [_ ->].
Qed.

Lemma statusAttempts_passOps (os : list op) :
  statusAttempts (passOps os) =
  match commitCode os with Some c => [c] | None => [] end.
Proof.
  unfold passOps, commitCode. pose proof (splitCommit_spec os) as Hs.
  destruct (splitCommit os) as [p [[o rest]|]].
  - destruct Hs as [Hp [Hos Ho]].
    destruct o; try discriminate;
      rewrite statusAttempts_app, (statusAttempts_headers p Hp); simpl;
      now rewrite statusAttempts_filter.
  - destruct Hs as [Hp _]. now apply statusAttempts_headers.
Qed.

(** The response the transport sends in pass-through mode is the one the
    handler's own calls make. *)
Lemma passOps_response (h : Header.t) (os : list op) :
  sentStatus (callsOf h (passOps os)) = sentStatus (callsOf h os) /\
  sentHeader (callsOf h (passOps os)) = sentHeader (callsOf h os) /\
  sentBody (callsOf h (passOps os)) = sentBody (callsOf h os).
Proof.
  rewrite !sentStatus_callsOf, !sentHeader_callsOf, !sentBody_callsOf.
  rewrite commitCode_passOps, written_passOps, splitCommit_passOps.
  repeat split.
  destruct (splitCommit os) as [p [[o rest]|]]; [|reflexivity].
  destruct o; reflexivity.
Qed.

(** ** The decorator and the flush *)

Section Decorator.
Context {W : Type} `{ResponseWriter W}.


(** C9: a flush that compresses takes one instance from the pool, resets
    it, feeds it the whole buffer in one write, closes it and puts it
    back, whatever the writes to the real writer return; what reaches the
    real writer does not depend on the instance the pool hands out. *)
Theorem flush_pool_discipline (grw : gzipResponseWriter W) (e : Env) :
  poolOps (snd (gzipFlush grw e)) =
    (poolOps e ++ match grw_body grw with
                  | Some body => flushPoolOps body
                  | None => []
                  end)%list /\
  List.length (pool (snd (gzipFlush grw e))) =
    match grw_body grw with
    | Some _ => Nat.max 1 (List.length (pool e))
    | None => List.length (pool e)
    end /\
  forall e2 : Env, fst (gzipFlush grw e2) = fst (gzipFlush grw e).
Proof.
  unfold gzipFlush, flushPoolOps.
  destruct (grw_body grw) as [body|]; simpl.
  2:{ now rewrite app_nil_r. }
  unfold pool_Get, gz_Reset, gz_Write, gz_Close, pool_Put, logOp. simpl.
  repeat split.
  - destruct (pool e) as [|gz0 rest]; simpl;
      destruct (writeChunks (gzEmitWrite [] body) _) as [[] w1]; simpl;
      try destruct (writeChunks (gzEmitClose body) w1) as [ok2 w2]; simpl;
      repeat rewrite <- app_assoc; reflexivity.
  - destruct (pool e) as [|gz0 rest]; simpl;
      destruct (writeChunks (gzEmitWrite [] body) _) as [[] w1]; simpl;
      try destruct (writeChunks (gzEmitClose body) w1) as [ok2 w2]; simpl;
      try reflexivity; lia.
  - intros e2.
    destruct (pool e) as [|gz0 rest]; destruct (pool e2) as [|gz2 rest2]; simpl;
      destruct (writeChunks (gzEmitWrite [] body) _) as [[] w1]; simpl;
      try destruct (writeChunks (gzEmitClose body) w1) as [ok2 w2]; reflexivity.
Qed.


End Decorator.

(** ** The middleware on the recorder *)

Lemma applyHeaderOp_untouched (k : string) (o : op) (h : Header.t) :
  touches k o = false -> applyHeaderOp h o !! k = h !! k.
Proof.
  destruct o; simpl; try reflexivity; intros Hk;
    apply bool_decide_eq_false in Hk.
  - unfold Header.Set_. now rewrite lookup_insert_ne.
  - unfold Header.Add. now rewrite lookup_insert_ne.
  - unfold Header.Del. now rewrite lookup_delete_ne.
Qed.

Lemma headerAfter_untouched (k : string) (os : list op) (h : Header.t) :
  existsb (touches k) os = false -> headerAfter h os !! k = h !! k.
Proof.
  revert h. induction os as [|o os IH]; intros h; [reflexivity|]. simpl.
  intros Hk. apply orb_false_elim in Hk as [Ho Hos].
  unfold headerAfter in *. simpl. rewrite (IH _ Hos).
  now apply applyHeaderOp_untouched.
Qed.

Lemma callsOf_untouched (k : string) (os : list op) (h : Header.t) :
  existsb (touches k) os = false ->
  Forall (fun c => callHeader c !! k = h !! k) (callsOf h os).
Proof.
  revert h. induction os as [|o os IH]; intros h; [constructor|]. simpl.
  intros Hk. apply orb_false_elim in Hk as [Ho Hos].
  destruct o; simpl;
    try (constructor; [reflexivity | now apply IH]);
    rewrite <- (applyHeaderOp_untouched k _ h Ho); now apply IH.
Qed.

Lemma serve_gzip_accept (h : baseHandler) (r : Request) (h0 : Header.t) (e : Env) :
  acceptsGzip r = true ->
  serve (gzipMiddleware (serveBase h)) r h0 e =
  ({| rec_header := headerAfter h0 (gzipOut h0 (bh_ops h r));
      rec_calls := callsOf h0 (gzipOut h0 (bh_ops h r)) |},
   if compresses h0 (bh_ops h r)
   then envAfterFlush (written (bh_ops h r)) (tick (bh_took h r) e)
   else tick (bh_took h r) e).
Proof.
  intros Hacc. unfold serve.
  rewrite (gzipMiddleware_accept h r _ e Hacc). now rewrite recorder_runOps.
Qed.

Lemma serve_gzip_refuse (h : baseHandler) (r : Request) (h0 : Header.t) (e : Env) :
  acceptsGzip r = false ->
  serve (gzipMiddleware (serveBase h)) r h0 e =
  ({| rec_header := headerAfter h0 (bh_ops h r);
      rec_calls := callsOf h0 (bh_ops h r) |},
   tick (bh_took h r) e).
Proof.
  intros Hacc. unfold serve.
  rewrite (gzipMiddleware_refuse _ r _ e Hacc). unfold serveBase.
  now rewrite recorder_runOps.
Qed.


(** ** Classification *)

Lemma HasPrefix_lowerASCII (s prefix : string) :
  GoStrings.HasPrefix (GoStrings.lowerASCII s) (GoStrings.lowerASCII prefix)
  = foldPrefix s prefix.
Proof.
  unfold GoStrings.HasPrefix.
  revert s. induction prefix as [|a prefix IH]; intros s; simpl;
    [now destruct s|].
  destruct s as [|c s]; simpl; [reflexivity|].
  rewrite <- IH.
  destruct (ascii_dec (GoStrings.lowerByte a) (GoStrings.lowerByte c)) as [Heq|Hne].
  - rewrite Heq, Ascii.eqb_refl. reflexivity.
  - apply not_eq_sym in Hne. apply Ascii.eqb_neq in Hne. now rewrite Hne.
Qed.

Lemma anyPrefix_existsb (ct : string) (ps : list string) :
  anyPrefix ct ps = existsb (GoStrings.HasPrefix ct) ps.
Proof.
  induction ps as [|p ps IH]; [reflexivity|]. simpl.
  now destruct (GoStrings.HasPrefix ct p).
Qed.

Lemma compressibleTypes_lower :
  Forall (fun p => GoStrings.lowerASCII p = p) compressibleTypes.
Proof. repeat constructor. Qed.

Lemma shouldCompress_ToLower (ct : string) :
  shouldCompress ct
  = existsb (GoStrings.HasPrefix (GoStrings.ToLower unicodeLower ct)) compressibleTypes.
Proof. unfold shouldCompress. apply anyPrefix_existsb. Qed.

Lemma shouldCompress_ASCII (ct : string) :
  GoStrings.isASCII ct = true ->
  shouldCompress ct = existsb (foldPrefix ct) compressibleTypes.
Proof.
  intros Hct. rewrite shouldCompress_ToLower. unfold GoStrings.ToLower. rewrite Hct.
  pose proof compressibleTypes_lower as Hl.
  induction Hl as [|p ps Hp Hps IH]; [reflexivity|]. simpl.
  rewrite IH. f_equal. rewrite <- Hp at 1. apply HasPrefix_lowerASCII.
Qed.

Lemma decoratorAfter_committed (h0 : Header.t) (os : list op) (ct : string) :
  commitType h0 os = Some ct ->
  grw_wroteHeader (decoratorAfter h0 os) = true /\
  grw_passthrough (decoratorAfter h0 os) = negb (shouldCompress ct) /\
  grw_code (decoratorAfter h0 os) = default StatusOK (commitCode os) /\
  (shouldCompress ct = true ->
   rec_calls (grw_ResponseWriter (decoratorAfter h0 os)) = [] /\
   default [] (grw_body (decoratorAfter h0 os)) = written os).
Proof.
  unfold decoratorAfter, commitType, commitCode. rewrite grw_run.
  cbn [rec_header Header recorder_ResponseWriter].
  pose proof (splitCommit_spec os) as Hs.
  pose proof (written_splitCommit os) as Hw.
  destruct (splitCommit os) as [p [[o rest]|]]; [|discriminate].
  destruct Hs as [Hp [Hos Ho]]. cbn [snd] in Hw.
  intros [= <-].
  destruct (shouldCompress _) eqn:Hsc;
    cbn [grw_wroteHeader grw_passthrough grw_code grw_body grw_ResponseWriter negb].
  - split; [reflexivity|]. split; [reflexivity|].
    split; [destruct o; try discriminate; reflexivity|].
    intros _. split.
    + rewrite <- runOps_app, recorder_runOps. cbn [rec_calls rec_header app].
      rewrite callsOf_app, (callsOf_headers _ p Hp).
      now rewrite (callsOf_headers _ _ (forallb_filter_header rest)).
    + now rewrite bufferAfter_default, Hw.
  - split; [reflexivity|]. split; [reflexivity|].
    split; [destruct o; try discriminate; reflexivity|].
    discriminate.
Qed.


(** ** Headers of the response *)

Lemma compresses_cases (h0 : Header.t) (os : list op) :
  compresses h0 os = true \/
  emptyBuffered h0 os = true \/
  (exists ct, commitType h0 os = Some ct /\ shouldCompress ct = false) \/
  commitType h0 os = None.
Proof.
  unfold compresses, emptyBuffered.
  destruct (commitType h0 os) as [ct|]; [|now right; right; right].
  destruct (shouldCompress ct) eqn:Hsc.
  - destruct (written os); simpl; auto.
  - right. right. left. now exists ct.
Qed.

Lemma compresses_not_emptyBuffered (h0 : Header.t) (os : list op) :
  emptyBuffered h0 os = true -> compresses h0 os = false.
Proof.
  unfold compresses, emptyBuffered.
  destruct (commitType h0 os) as [ct|]; [|reflexivity].
  destruct (shouldCompress ct); [|reflexivity].
  now destruct (written os).
Qed.

Lemma carriesGzip_untouched (cs : list call) :
  Forall (fun c => callHeader c !! "Content-Encoding" = None) cs ->
  carriesGzip cs = false.
Proof.
  unfold carriesGzip. intros Hcs.
  destruct Hcs as [|c cs Hc _]; [reflexivity|].
  destruct c; simpl in *; unfold Header.Get; now rewrite Hc.
Qed.

Lemma carriesGzip_sentHeader (cs1 cs2 : list call) :
  sentHeader cs1 = sentHeader cs2 -> carriesGzip cs1 = carriesGzip cs2.
Proof. unfold carriesGzip. now intros ->. Qed.

Lemma flushHeader_encoding (h0 : Header.t) (os : list op) :
  Header.Get (flushHeader h0 os) "Content-Encoding" = "gzip" /\
  flushHeader h0 os !! "Content-Length" = None.
Proof.
  unfold flushHeader, Header.Get, Header.Del, Header.Set_. split.
  - rewrite lookup_delete_ne by discriminate. now rewrite lookup_insert_eq.
  - apply lookup_delete_eq.
Qed.

Lemma callsOf_direct_untouched (h0 : Header.t) (os : list op) :
  h0 !! "Content-Encoding" = None ->
  existsb (touches "Content-Encoding") os = false ->
  carriesGzip (callsOf h0 os) = false.
Proof.
  intros Hh0 Hk. apply carriesGzip_untouched.
  eapply Forall_impl; [apply (callsOf_untouched "Content-Encoding" _ h0 Hk)|].
  intros c Hc. simpl in Hc. now rewrite Hc.
Qed.


(** ** Round trip *)

Section Codec.

(** The decompressor, and the property of the compression library that a
    stream written in one [Write] and closed decompresses to its input. *)
Variable gunzip : list byte -> option (list byte).
Hypothesis gunzip_gzEmit : forall body, gunzip (concat (gzEmit body)) = Some body.


End Codec.

(** ** The whole chain: [loggingMiddleware (gzipMiddleware base)] *)

Lemma gzipMiddleware_reaching {W} `{ResponseWriter W} `{!LawfulWriter W} `{!ReliableWriter W}
  (h : baseHandler) (r : Request) (w : W) (e : Env) :
  gzipMiddleware (serveBase h) W _ r (w, e) =
  (runOps (reaching r (Header w) (bh_ops h r)) w,
   if acceptsGzip r && compresses (Header w) (bh_ops h r)
   then envAfterFlush (written (bh_ops h r)) (tick (bh_took h r) e)
   else tick (bh_took h r) e).
Proof.
  unfold reaching. destruct (acceptsGzip r) eqn:Hacc.
  - now rewrite gzipMiddleware_accept.
  - now rewrite gzipMiddleware_refuse.
Qed.

Lemma main_run (h : baseHandler) (r : Request) (h0 : Header.t) (e : Env) :
  let out := reaching r h0 (bh_ops h r) in
  rec_calls (fst (serve (mainHandler h) r h0 e)) = callsOf h0 out /\
  rec_header (fst (serve (mainHandler h) r h0 e)) = headerAfter h0 out /\
  logs (snd (serve (mainHandler h) r h0 e)) =
    (logs e ++ [ {| log_method := Method r;
                    log_path := Path r;
                    log_status := hd StatusOK (statusAttempts out);
                    log_duration := bh_took h r |} ])%list /\
  poolOps (snd (serve (mainHandler h) r h0 e)) =
    (poolOps e ++ if acceptsGzip r && compresses h0 (bh_ops h r)
                  then flushPoolOps (written (bh_ops h r)) else [])%list.
Proof.
  cbv zeta. unfold serve, mainHandler, loggingMiddleware.
  rewrite gzipMiddleware_reaching. cbn [Header statusWriter_ResponseWriter
    sw_ResponseWriter recorder_ResponseWriter rec_header].
  rewrite statusWriter_runOps. cbn [sw_ResponseWriter sw_status sw_wroteHeader fst snd].
  rewrite recorder_runOps. cbn [rec_calls rec_header app].
  repeat split.
  - destruct (acceptsGzip r && compresses h0 (bh_ops h r)); simpl;
      do 3 f_equal; lia.
  - destruct (acceptsGzip r && compresses h0 (bh_ops h r)); simpl;
      [reflexivity | now rewrite app_nil_r].
Qed.

(** ** Status commit *)

Lemma emptyBuffered_false_cases (h0 : Header.t) (os : list op) :
  emptyBuffered h0 os = false ->
  compresses h0 os = true \/
  (exists ct, commitType h0 os = Some ct /\ shouldCompress ct = false) \/
  commitType h0 os = None.
Proof.
  intros He. destruct (compresses_cases h0 os) as [Hc|[Hc|Hc]]; auto. congruence.
Qed.

(** The status the transport commits under [gzipMiddleware] is the one the
    handler commits, unless the decorator buffered and the buffer is
    empty. *)
Lemma sentStatus_reaching (r : Request) (h0 : Header.t) (os : list op) :
  acceptsGzip r && emptyBuffered h0 os = false ->
  sentStatus (callsOf h0 (reaching r h0 os)) = commitCode os.
Proof.
  unfold reaching. destruct (acceptsGzip r); simpl; [|intros _; apply sentStatus_callsOf].
  intros He. destruct (emptyBuffered_false_cases h0 os He) as [Hc|[[ct [Hct Hsc]]|Hc]].
  - rewrite (gzipOut_calls_compress h0 os Hc). simpl.
    unfold compresses, commitType, commitCode in *.
    destruct (splitCommit os) as [p [[o rest]|]]; [|discriminate].
    now destruct o.
  - rewrite (gzipOut_passthrough h0 os ct Hct Hsc).
    destruct (passOps_response h0 os) as (H1 & _). rewrite H1.
    apply sentStatus_callsOf.
  - rewrite (gzipOut_uncommitted h0 os Hc). apply sentStatus_callsOf.
Qed.



(** C4, at the failing input: the request accepts gzip, the handler sets a
    compressible type and the status 404 and writes no body; the decorator
    records 404 and buffers, the buffer is nil at the flush, and the real
    writer receives no call: the status is never sent. *)
Theorem status_lost_on_empty_body :
  acceptsGzip missingRequest = true /\
  commitType ∅ (bh_ops missingHandler missingRequest) = Some "text/plain" /\
  shouldCompress "text/plain" = true /\
  buffering (decoratorAfter ∅ (bh_ops missingHandler missingRequest)) = true /\
  grw_code (decoratorAfter ∅ (bh_ops missingHandler missingRequest)) = 404 /\
  grw_body (decoratorAfter ∅ (bh_ops missingHandler missingRequest)) = None /\
  callsFor (gzipMiddleware (serveBase missingHandler)) missingRequest ∅ emptyEnv = [] /\
  poolOps (snd (serve (gzipMiddleware (serveBase missingHandler)) missingRequest ∅ emptyEnv))
  = [].
Proof. vm_compute. repeat split. Qed.

(** C7, at the failing input: for the same request and handler the line
    logged has the status 200, though the only status the handler set is
    404. *)
Theorem logged_status_on_empty_body :
  statusAttempts (bh_ops missingHandler missingRequest) = [404] /\
  logs (snd (serve (mainHandler missingHandler) missingRequest ∅ emptyEnv))
  = [ {| log_method := "GET"; log_path := "/missing";
         log_status := 200; log_duration := 1 |} ].
Proof. vm_compute. repeat split. Qed.

(** ** Negotiation and classification on strings *)

Lemma HasPrefix_iff (s prefix : string) :
  GoStrings.HasPrefix s prefix = true <-> exists post, s = prefix ++ post.
Proof.
  unfold GoStrings.HasPrefix. revert s.
  induction prefix as [|a prefix IH]; intros s.
  - split; [intros _; now exists s | intros _; now destruct s].
  - destruct s as [|c s]; simpl.
    + split; [discriminate | intros [post [=]]].
    + destruct (ascii_dec a c) as [->|Hne].
      * rewrite IH. split; intros [post Hp]; exists post.
        -- now rewrite Hp.
        -- now injection Hp.
      * split; [discriminate|]. intros [post [= Hac _]]. now symmetry in Hac.
Qed.

Lemma Contains_iff (s substr : string) :
  GoStrings.Contains s substr = true <-> exists pre post, s = pre ++ substr ++ post.
Proof.
  induction s as [|c s IH]; cbn [GoStrings.Contains].
  - rewrite orb_false_r, HasPrefix_iff. split.
    + intros [post Hp]. now exists "", post.
    + intros [[|c pre] [post Hp]]; [now exists post | discriminate].
  - rewrite orb_true_iff, HasPrefix_iff, IH. split.
    + intros [[post Hp]|[pre [post Hp]]].
      * now exists "", post.
      * exists (String c pre), post. simpl. now rewrite Hp.
    + intros [[|c' pre] [post Hp]].
      * left. now exists post.
      * right. injection Hp as _ Hp. now exists pre, post.
Qed.

(** X1: a request accepts gzip exactly when the first value of its
    [Accept-Encoding] header contains the four bytes [gzip] somewhere;
    a request without the header, or with the bytes in a later value only,
    does not. *)
Theorem acceptsGzip_iff (r : Request) :
  acceptsGzip r = true <->
  exists v rest pre post,
    ReqHeader r !! "Accept-Encoding" = Some (v :: rest) /\ v = pre ++ "gzip" ++ post.
Proof.
  unfold acceptsGzip, Header.Get. rewrite Contains_iff.
  destruct (ReqHeader r !! "Accept-Encoding") as [[|v rest]|] eqn:Hh.
  - split.
    + intros [[|c pre] [post Hp]]; discriminate.
    + intros (v & rest & pre & post & [=] & _).
  - split.
    + intros [pre [post Hp]]. now exists v, rest, pre, post.
    + intros (v' & rest' & pre & post & [= <- <-] & Hp). now exists pre, post.
  - split.
    + intros [[|c pre] [post Hp]]; discriminate.
    + intros (v & rest & pre & post & [=] & _).
Qed.

Lemma string_app_cons (c : ascii) (a b : string) :
  String c a ++ b = String c (a ++ b).
Proof. reflexivity. Qed.

Lemma lowerASCII_app (a b : string) :
  GoStrings.lowerASCII (a ++ b) = GoStrings.lowerASCII a ++ GoStrings.lowerASCII b.
Proof.
  induction a as [|c a IH]; [reflexivity|].
  rewrite string_app_cons. simpl. now rewrite IH, string_app_cons.
Qed.

Lemma isASCII_app (a b : string) :
  GoStrings.isASCII (a ++ b) = GoStrings.isASCII a && GoStrings.isASCII b.
Proof.
  induction a as [|c a IH]; [reflexivity|].
  rewrite string_app_cons. simpl. now rewrite IH, andb_assoc.
Qed.

Lemma string_app_assoc (a b c : string) : (a ++ b) ++ c = a ++ b ++ c.
Proof.
  induction a as [|x a IH]; [reflexivity|].
  rewrite !string_app_cons. now rewrite IH.
Qed.

Lemma anyPrefix_app (ct suffix : string) (ps : list string) :
  anyPrefix ct ps = true -> anyPrefix (ct ++ suffix) ps = true.
Proof.
  rewrite !anyPrefix_existsb, !existsb_exists.
  intros [p [Hin Hp]]. exists p. split; [assumption|].
  apply HasPrefix_iff in Hp as [post Hp]. apply HasPrefix_iff.
  exists (post ++ suffix). now rewrite Hp, string_app_assoc.
Qed.

(** X2: what follows a compressible ASCII type in the header value (a
    subtype, parameters such as a charset) does not change the answer of
    [shouldCompress]. *)
Theorem shouldCompress_suffix (ct suffix : string) :
  GoStrings.isASCII ct = true ->
  GoStrings.isASCII suffix = true ->
  shouldCompress ct = true ->
  shouldCompress (ct ++ suffix) = true.
Proof.
  intros Hct Hs. unfold shouldCompress, GoStrings.ToLower.
  rewrite isASCII_app, Hct, Hs. cbn [andb]. rewrite lowerASCII_app.
  apply anyPrefix_app.
Qed.

Lemma lowerASCII_length (s : string) :
  String.length (GoStrings.lowerASCII s) = String.length s.
Proof. induction s as [|c s IH]; simpl; [reflexivity | now rewrite IH]. Qed.

Lemma string_app_length (a b : string) :
  String.length (a ++ b) = (String.length a + String.length b)%nat.
Proof.
  induction a as [|c a IH]; [reflexivity|].
  rewrite string_app_cons. simpl. now rewrite IH.
Qed.

(** X3: an ASCII [Content-Type] of fewer than five bytes, the empty one of
    a missing header among them, is never compressible. *)
Theorem shouldCompress_short (ct : string) :
  GoStrings.isASCII ct = true ->
  (String.length ct < 5)%nat ->
  shouldCompress ct = false.
Proof.
  intros Hct Hlen. unfold shouldCompress, GoStrings.ToLower. rewrite Hct.
  destruct (anyPrefix (GoStrings.lowerASCII ct) compressibleTypes) eqn:Hany;
    [|reflexivity].
  exfalso. rewrite anyPrefix_existsb, existsb_exists in Hany.
  destruct Hany as [p [Hin Hp]]. apply HasPrefix_iff in Hp as [post Hp].
  apply (f_equal String.length) in Hp.
  rewrite lowerASCII_length, string_app_length in Hp.
  assert (Hmin : (5 <= String.length p)%nat).
  { unfold compressibleTypes in Hin. simpl in Hin.
    repeat (destruct Hin as [<-|Hin]; [simpl; lia|]). destruct Hin. }
  lia.
Qed.

(** ** Edge cases of the middleware *)

Lemma existsb_touches_prefix (k : string) (os : list op) :
  existsb (touches k) os = false ->
  existsb (touches k) (fst (splitCommit os)) = false.
Proof.
  intros Hk. pose proof (splitCommit_app os) as Happ.
  rewrite Happ, existsb_app in Hk. now apply orb_false_elim in Hk as [Hp _].
Qed.

Lemma commitType_untouched (h0 : Header.t) (os : list op) (ct : string) :
  Header.Get h0 "Content-Type" = "" ->
  existsb (touches "Content-Type") os = false ->
  commitType h0 os = Some ct ->
  ct = "".
Proof.
  intros Hh0 Hk. pose proof (existsb_touches_prefix _ _ Hk) as Hp.
  unfold commitType. destruct (splitCommit os) as [p [c|]]; [|discriminate].
  intros [= <-]. simpl in Hp. unfold Header.Get in *.
  now rewrite (headerAfter_untouched _ _ h0 Hp).
Qed.


(** X5: with gzip accepted, a handler that neither sets a status nor
    writes makes the middleware send nothing: the real writer receives no
    call, its header map is the one the handler left, and the pool is not
    used. *)
Theorem uncommitted_sends_nothing
  (h : baseHandler) (r : Request) (h0 : Header.t) (e : Env) :
  acceptsGzip r = true ->
  commitType h0 (bh_ops h r) = None ->
  serve (gzipMiddleware (serveBase h)) r h0 e =
  ({| rec_header := headerAfter h0 (bh_ops h r); rec_calls := [] |},
   tick (bh_took h r) e).
Proof.
  intros Hacc Hct. rewrite (serve_gzip_accept h r h0 e Hacc).
  rewrite (gzipOut_uncommitted h0 _ Hct).
  unfold compresses. rewrite Hct. f_equal. f_equal.
  rewrite callsOf_split. unfold commitType in Hct.
  destruct (splitCommit (bh_ops h r)) as [p [c|]]; [discriminate | reflexivity].
Qed.

(** X6: with gzip accepted, a handler that commits with a compressible
    type and writes no byte at all (no write, or writes of empty slices
    only) gets nothing sent: the real writer receives neither the status
    nor a body, only the handler's changes of the header map, and the pool
    is not used. *)
Theorem empty_buffer_sends_nothing
  (h : baseHandler) (r : Request) (h0 : Header.t) (e : Env) :
  acceptsGzip r = true ->
  emptyBuffered h0 (bh_ops h r) = true ->
  serve (gzipMiddleware (serveBase h)) r h0 e =
  ({| rec_header := headerAfter h0 (bh_ops h r); rec_calls := [] |},
   tick (bh_took h r) e).
Proof.
  intros Hacc He. rewrite (serve_gzip_accept h r h0 e Hacc).
  rewrite (gzipOut_emptyBuffered h0 _ He).
  rewrite (compresses_not_emptyBuffered h0 _ He).
  now rewrite headerAfter_filter, (callsOf_headers _ _ (forallb_filter_header _)).
Qed.

Lemma headerCalls_callsOf (h : Header.t) (os : list op) :
  headerCalls (callsOf h os) = statusAttempts os.
Proof.
  revert h. induction os as [|o os IH]; intros h; [reflexivity|].
  destruct o; simpl; rewrite ?IH; reflexivity.
Qed.

Lemma headerCalls_chunks (hf : Header.t) (cs : list (list byte)) :
  headerCalls (map (fun c => CallWrite c hf) cs) = [].
Proof. induction cs as [|c cs IH]; simpl; [reflexivity | exact IH]. Qed.

Lemma commitCode_Some_compresses (h0 : Header.t) (os : list op) :
  compresses h0 os = true -> exists c, commitCode os = Some c.
Proof.
  unfold compresses, commitType, commitCode.
  destruct (splitCommit os) as [p [[o rest]|]]; [|discriminate].
  intros _. destruct o; eauto.
Qed.

(** The [WriteHeader] calls the real writer receives with gzip accepted. *)
Lemma statusAttempts_gzipOut (h0 : Header.t) (os : list op) :
  statusAttempts (gzipOut h0 os) =
  if emptyBuffered h0 os then []
  else match commitCode os with Some c => [c] | None => [] end.
Proof.
  destruct (compresses_cases h0 os) as [Hc|[Hc|[[ct [Hct Hsc]]|Hc]]].
  - rewrite <- (headerCalls_callsOf h0), (gzipOut_calls_compress h0 os Hc).
    destruct (commitCode_Some_compresses h0 os Hc) as [c Hcc]. rewrite Hcc.
    simpl. rewrite headerCalls_chunks.
    unfold compresses, emptyBuffered in *.
    destruct (commitType h0 os) as [ct|]; [|discriminate].
    destruct (shouldCompress ct); [|discriminate].
    now destruct (written os).
  - rewrite Hc, (gzipOut_emptyBuffered h0 os Hc).
    apply statusAttempts_headers, forallb_filter_header.
  - rewrite (gzipOut_passthrough h0 os ct Hct Hsc), statusAttempts_passOps.
    unfold emptyBuffered. now rewrite Hct, Hsc.
  - rewrite (gzipOut_uncommitted h0 os Hc).
    unfold emptyBuffered, commitCode, commitType in *. rewrite Hc.
    pose proof (splitCommit_spec os) as Hs.
    destruct (splitCommit os) as [p [[o rest]|]]; [discriminate|].
    destruct Hs as [Hp Hos]. subst p. now apply statusAttempts_headers.
Qed.

(** X7: with gzip accepted the real writer receives at most one
    [WriteHeader] call, whatever number the handler makes: the code the
    handler commits first, and none at all when nothing is committed or
    the buffer stays empty. *)
Theorem gzip_single_WriteHeader
  (h : baseHandler) (r : Request) (h0 : Header.t) (e : Env) :
  acceptsGzip r = true ->
  headerCalls (callsFor (gzipMiddleware (serveBase h)) r h0 e) =
  if emptyBuffered h0 (bh_ops h r) then []
  else match commitCode (bh_ops h r) with Some c => [c] | None => [] end.
Proof.
  intros Hacc. unfold callsFor. rewrite (serve_gzip_accept h r h0 e Hacc).
  cbn [fst rec_calls]. rewrite headerCalls_callsOf. apply statusAttempts_gzipOut.
Qed.

(** ** The logging layer *)

Lemma mainHandler_run {W} `{ResponseWriter W} `{!LawfulWriter W} `{!ReliableWriter W}
  (h : baseHandler) (r : Request) (w : W) (e : Env) :
  mainHandler h W _ r (w, e) =
  (fst (gzipMiddleware (serveBase h) W _ r (w, e)),
   {| pool := pool (snd (gzipMiddleware (serveBase h) W _ r (w, e)));
      poolOps := poolOps (snd (gzipMiddleware (serveBase h) W _ r (w, e)));
      now := now (snd (gzipMiddleware (serveBase h) W _ r (w, e)));
      logs := (logs e ++
               [ {| log_method := Method r;
                    log_path := Path r;
                    log_status :=
                      hd StatusOK (statusAttempts (reaching r (Header w) (bh_ops h r)));
                    log_duration := bh_took h r |} ])%list |}).
Proof.
  unfold mainHandler, loggingMiddleware.
  rewrite !gzipMiddleware_reaching.
  cbn [Header statusWriter_ResponseWriter sw_ResponseWriter].
  rewrite statusWriter_runOps.
  cbn [sw_ResponseWriter sw_status sw_wroteHeader fst snd].
  destruct (acceptsGzip r && compresses (Header w) (bh_ops h r)); simpl;
    repeat f_equal; lia.
Qed.

(** X8: the logging layer changes nothing of the response: for every
    lawful writer whose writes succeed, the writer, the pool and the clock
    after [loggingMiddleware (gzipMiddleware base)] are those after
    [gzipMiddleware base] alone. *)
Theorem logging_transparent {W} `{ResponseWriter W} `{!LawfulWriter W} `{!ReliableWriter W}
  (h : baseHandler) (r : Request) (w : W) (e : Env) :
  fst (mainHandler h W _ r (w, e)) = fst (gzipMiddleware (serveBase h) W _ r (w, e)) /\
  pool (snd (mainHandler h W _ r (w, e)))
    = pool (snd (gzipMiddleware (serveBase h) W _ r (w, e))) /\
  poolOps (snd (mainHandler h W _ r (w, e)))
    = poolOps (snd (gzipMiddleware (serveBase h) W _ r (w, e))) /\
  now (snd (mainHandler h W _ r (w, e)))
    = now (snd (gzipMiddleware (serveBase h) W _ r (w, e))).
Proof. rewrite mainHandler_run. repeat split. Qed.

(** X9: every request appends exactly one line to the log and keeps the
    earlier lines: the line has the method and path of the request, the
    time the inner handler took, and as status the code of the first
    [WriteHeader] call that reaches the logging writer, 200 when none
    does. *)
Theorem one_log_line {W} `{ResponseWriter W} `{!LawfulWriter W} `{!ReliableWriter W}
  (h : baseHandler) (r : Request) (w : W) (e : Env) :
  logs (snd (mainHandler h W _ r (w, e))) =
  (logs e ++
   [ {| log_method := Method r;
        log_path := Path r;
        log_status := hd StatusOK (statusAttempts (reaching r (Header w) (bh_ops h r)));
        log_duration := now (snd (mainHandler h W _ r (w, e))) - now e |} ])%list.
Proof.
  rewrite mainHandler_run. cbn [snd logs now]. do 3 f_equal.
  rewrite gzipMiddleware_reaching. cbn [snd].
  destruct (acceptsGzip r && compresses (Header w) (bh_ops h r)); simpl; lia.
Qed.


(** X11: without gzip a handler that writes before its first
    [WriteHeader] has 200 sent by the transport and the code of that
    later [WriteHeader] logged: [statusWriter] does not see body writes. *)
Theorem plain_logged_after_write
  (h : baseHandler) (r : Request) (h0 : Header.t) (e : Env)
  (p rest : list op) (b : list byte) (c : Z) (cs : list Z) :
  acceptsGzip r = false ->
  splitCommit (bh_ops h r) = (p, Some (OpWrite b, rest)) ->
  statusAttempts rest = c :: cs ->
  sentStatus (rec_calls (fst (serve (mainHandler h) r h0 e))) = Some StatusOK /\
  map log_status (logs (snd (serve (mainHandler h) r h0 e)))
  = (map log_status (logs e) ++ [c])%list.
Proof.
  intros Hacc Hsp Hrest. destruct (main_run h r h0 e) as (Hcalls & _ & Hlogs & _).
  rewrite Hcalls, Hlogs, map_app. cbn [map log_status].
  unfold reaching. rewrite Hacc.
  pose proof (splitCommit_spec (bh_ops h r)) as Hs. rewrite Hsp in Hs.
  destruct Hs as [Hp [Hos _]]. split.
  - rewrite sentStatus_callsOf. unfold commitCode. now rewrite Hsp.
  - rewrite Hos, statusAttempts_app, (statusAttempts_headers p Hp). simpl.
    now rewrite Hrest.
Qed.

(** X12: on a compressed response the middleware changes two keys of the
    header map only: under every key but [Content-Encoding] and
    [Content-Length], each call the real writer receives carries what the
    handler's calls left there, those after the commit included. *)
Theorem flush_keeps_other_keys
  (h : baseHandler) (r : Request) (h0 : Header.t) (e : Env) (k : string) :
  acceptsGzip r = true ->
  compresses h0 (bh_ops h r) = true ->
  k <> "Content-Encoding" ->
  k <> "Content-Length" ->
  Forall (fun c => callHeader c !! k = headerAfter h0 (bh_ops h r) !! k)
    (callsFor (gzipMiddleware (serveBase h)) r h0 e).
Proof.
  intros Hacc Hc Hk1 Hk2. unfold callsFor.
  rewrite (serve_gzip_accept h r h0 e Hacc). cbn [fst rec_calls].
  rewrite (gzipOut_calls_compress h0 _ Hc).
  assert (Hf : flushHeader h0 (bh_ops h r) !! k = headerAfter h0 (bh_ops h r) !! k).
  { unfold flushHeader, Header.Del, Header.Set_.
    rewrite lookup_delete_ne by congruence. now rewrite lookup_insert_ne by congruence. }
  constructor; [exact Hf|].
  apply Forall_map. apply Forall_forall. intros c _. exact Hf.
Qed.

(** ** Requests in sequence *)

Lemma serve_main_pool (h : baseHandler) (r : Request) (h0 : Header.t) (e : Env) :
  (List.length (pool (snd (serve (mainHandler h) r h0 e)))
   <= Nat.max 1 (List.length (pool e)))%nat.
Proof.
  unfold serve. rewrite mainHandler_run. cbn [snd pool].
  rewrite gzipMiddleware_reaching. cbn [snd].
  destruct (acceptsGzip r && compresses _ _); simpl; [|lia].
  destruct (pool e); simpl; lia.
Qed.

(** X13: served one after the other with a shared pool, every request
    gets the response it gets when served alone with an empty pool:
    nothing of an earlier request reaches a later response through the
    pooled compressor, the clock or the log. *)
Theorem sequential_responses_independent
  (h : baseHandler) (h0 : Header.t) (rs : list Request) (e : Env) :
  fst (serveAll h h0 rs e)
  = map (fun r => callsFor (mainHandler h) r h0 emptyEnv) rs.
Proof.
  revert e. induction rs as [|r rs IH]; intros e; [reflexivity|].
  cbn [serveAll map].
  destruct (serve (mainHandler h) r h0 e) as [w e1] eqn:Hs.
  specialize (IH e1). destruct (serveAll h h0 rs e1) as [outs e2].
  cbn [fst] in *. rewrite IH. f_equal.
  unfold callsFor.
  destruct (main_run h r h0 e) as (H1 & _).
  destruct (main_run h r h0 emptyEnv) as (H2 & _).
  rewrite Hs in H1. cbn [fst] in H1. now rewrite H1, H2.
Qed.

(** X14: over any sequence of requests the pool never grows beyond one
    instance more than an empty pool had (it keeps its size otherwise),
    and the log gains one line per request, in the order of the requests,
    with the path of each. *)
Theorem sequential_pool_and_log
  (h : baseHandler) (h0 : Header.t) (rs : list Request) (e : Env) :
  (List.length (pool (snd (serveAll h h0 rs e)))
   <= Nat.max 1 (List.length (pool e)))%nat /\
  map log_path (logs (snd (serveAll h h0 rs e)))
  = (map log_path (logs e) ++ map Path rs)%list.
Proof.
  revert e. induction rs as [|r rs IH]; intros e.
  - cbn [serveAll snd map]. split; [lia | now rewrite app_nil_r].
  - cbn [serveAll map].
    pose proof (serve_main_pool h r h0 e) as Hp.
    destruct (main_run h r h0 e) as (_ & _ & Hl & _).
    destruct (serve (mainHandler h) r h0 e) as [w e1] eqn:Hs.
    destruct (IH e1) as [IHp IHl]. destruct (serveAll h h0 rs e1) as [outs e2].
    cbn [snd] in *. split; [lia|].
    rewrite IHl, Hl, map_app. cbn [map log_path]. now rewrite <- app_assoc.
Qed.

(** ** Invariants of the decorator *)

Lemma grwConsistent_runOp {W} `{ResponseWriter W} (o : op) (w : gzipResponseWriter W) :
  grwConsistent w -> grwConsistent (runOp o w).
Proof.
  destruct w as [i bd c wh pt]. unfold grwConsistent. simpl. intros [Hp Hw].
  assert (Hpt : wh = false -> pt = false).
  { intros ->. destruct pt; [destruct (Hp eq_refl); discriminate | reflexivity]. }
  destruct o; simpl; try (split; assumption).
  - unfold gzipResponseWriter_WriteHeader. simpl.
    destruct wh; [split; assumption|].
    destruct (Hw eq_refl) as [-> ->]. rewrite (Hpt eq_refl).
    destruct (shouldCompress _); simpl; split; intros; try discriminate;
      repeat split; auto.
  - unfold gzipResponseWriter_Write, gzipResponseWriter_WriteHeader. simpl.
    destruct wh; simpl.
    + destruct pt; simpl.
      * destruct (Write b i) as [res i']. simpl.
        split; intros; try discriminate. now apply Hp.
      * split; intros; discriminate.
    + destruct (Hw eq_refl) as [-> ->]. rewrite (Hpt eq_refl).
      destruct (shouldCompress _); simpl.
      * split; intros; discriminate.
      * destruct (Write b _) as [res i']. simpl.
        split; intros; try discriminate. now split.
Qed.

(** X15: whatever calls a handler makes on a fresh decorator, over any
    writer, pass-through mode and a buffer never come together: in
    pass-through mode the buffer is nil, a buffer that is not nil means a
    commit in buffering mode, and before the commit nothing is recorded. *)
Theorem decorator_never_mixes {W} `{ResponseWriter W} (os : list op) (w0 : W) :
  let w := runOps os (newGzipResponseWriter w0) in
  (grw_passthrough w = true -> grw_wroteHeader w = true /\ grw_body w = None) /\
  (grw_body w <> None -> grw_wroteHeader w = true /\ grw_passthrough w = false) /\
  (grw_wroteHeader w = false -> grw_body w = None /\ grw_code w = 0).
Proof.
  cbv zeta.
  assert (Hc : grwConsistent (runOps os (newGzipResponseWriter w0))).
  { assert (H0 : grwConsistent (newGzipResponseWriter w0))
      by (split; [discriminate | now split]).
    revert H0. generalize (newGzipResponseWriter w0).
    induction os as [|o os IH]; intros w Hw; [exact Hw|].
    apply (IH (runOp o w)). now apply grwConsistent_runOp. }
  destruct Hc as [Hp Hw]. split; [exact Hp|]. split; [|exact Hw].
  intros Hb.
  destruct (grw_wroteHeader (runOps os (newGzipResponseWriter w0))) eqn:Hwh.
  - split; [reflexivity|].
    destruct (grw_passthrough (runOps os (newGzipResponseWriter w0))) eqn:Hpt;
      [|reflexivity].
    now destruct (Hp eq_refl).
  - now destruct (Hw eq_refl).
Qed.

Lemma gzipResponseWriter_Lawful {W} `{ResponseWriter W} `{!LawfulWriter W} :
  LawfulWriter (gzipResponseWriter W).
Proof.
  split.
  - intros f w. cbn. apply Header_updHeader.
  - intros c w. cbn. unfold gzipResponseWriter_WriteHeader.
    destruct (grw_wroteHeader w); [reflexivity|].
    destruct (shouldCompress _); cbn; [reflexivity | apply Header_WriteHeader].
  - intros b w. cbn. unfold gzipResponseWriter_Write.
    set (w1 := if negb (grw_wroteHeader w)
               then gzipResponseWriter_WriteHeader StatusOK w else w).
    assert (H1 : Header (grw_ResponseWriter w1) = Header (grw_ResponseWriter w)).
    { subst w1. destruct (grw_wroteHeader w); [reflexivity|]. cbn.
      unfold gzipResponseWriter_WriteHeader.
      destruct (grw_wroteHeader w); [reflexivity|].
      destruct (shouldCompress _); cbn; [reflexivity | apply Header_WriteHeader]. }
    destruct (grw_passthrough w1); cbn; [|exact H1].
    pose proof (Header_Write b (grw_ResponseWriter w1)) as Hw.
    destruct (Write b (grw_ResponseWriter w1)) as [res i']. cbn in *.
    now rewrite Hw.
Qed.

(** X16: the decorator never holds back a change of the header map: in
    every mode, also while it buffers, each [Set], [Add] and [Del] of the
    handler is in the map of the real writer as soon as it is made, and no
    other call changes that map. *)
Theorem decorator_header_immediate {W} `{ResponseWriter W} `{!LawfulWriter W}
  (os : list op) (w0 : W) :
  Header (grw_ResponseWriter (runOps os (newGzipResponseWriter w0)))
  = headerAfter (Header w0) os.
Proof.
  exact (@Header_runOps (gzipResponseWriter W) _ gzipResponseWriter_Lawful
           os (newGzipResponseWriter w0)).
Qed.

(** X17: without gzip nothing filters the handler's status calls: the
    real writer receives every [WriteHeader] the handler makes, in order,
    through the logging writer. *)
Theorem plain_forwards_every_WriteHeader
  (h : baseHandler) (r : Request) (h0 : Header.t) (e : Env) :
  acceptsGzip r = false ->
  headerCalls (rec_calls (fst (serve (mainHandler h) r h0 e)))
  = statusAttempts (bh_ops h r).
Proof.
  intros Hacc. destruct (main_run h r h0 e) as (Hcalls & _).
  rewrite Hcalls. unfold reaching. rewrite Hacc. apply headerCalls_callsOf.
Qed.

End Server.

(** ** The theorems at concrete inputs *)

(** The stored stream of a body decompresses to the body. *)
Lemma storedGunzip_gzEmit (body : list byte) :
  storedGunzip (concat (gzEmit storedWrite storedClose body)) = Some body.
Proof. unfold gzEmit, storedWrite, storedClose. simpl. now rewrite app_nil_r. Qed.








(** ** The scenarios of the specification *)

(** Scenario A: status 200, [Content-Encoding: gzip], no [Content-Length],
    and the body decompresses to the page. *)
Example scenario_A :
  let cs := callsFor (gzipMiddleware keepLower storedWrite storedClose (serveBase htmlHandler))
              htmlRequest ∅ emptyEnv in
  sentStatus cs = Some 200 /\
  option_map (fun h => Header.Get h "Content-Encoding") (sentHeader cs) = Some "gzip" /\
  option_map (fun h => Header.Has h "Content-Length") (sentHeader cs) = Some false /\
  storedGunzip (sentBody cs) = Some htmlBody.
Proof. vm_compute. repeat split. Qed.

(** Scenario B: an image passes through: the calls are the handler's own,
    [Content-Length] kept, no [Content-Encoding]. *)
Example scenario_B :
  let cs := callsFor (gzipMiddleware keepLower storedWrite storedClose (serveBase pngHandler))
              pngRequest ∅ emptyEnv in
  cs = callsOf ∅ (bh_ops pngHandler pngRequest) /\
  option_map (fun h => Header.Get h "Content-Length") (sentHeader cs) = Some "4" /\
  option_map (fun h => Header.Has h "Content-Encoding") (sentHeader cs) = Some false /\
  sentBody cs = pngBody.
Proof. vm_compute. repeat split. Qed.

(** Scenario C: a 404 with a text body is compressed and keeps its status,
    which is the status logged. *)
Example scenario_C :
  let out := serve (mainHandler keepLower storedWrite storedClose notFoundHandler)
               missingRequest ∅ emptyEnv in
  sentStatus (rec_calls (fst out)) = Some 404 /\
  carriesGzip (rec_calls (fst out)) = true /\
  storedGunzip (sentBody (rec_calls (fst out))) = Some notFoundBody /\
  map log_status (logs (snd out)) = [404].
Proof. vm_compute. repeat split. Qed.

(** Scenario D: without [Accept-Encoding] the response is the handler's. *)
Example scenario_D :
  let cs := callsFor (gzipMiddleware keepLower storedWrite storedClose (serveBase htmlHandler))
              plainRequest ∅ emptyEnv in
  cs = callsOf ∅ (bh_ops htmlHandler plainRequest) /\
  carriesGzip cs = false /\
  sentBody cs = htmlBody.
Proof. vm_compute. repeat split. Qed.

(** A handler that writes and then sets 500: the transport sends 200 with
    and without gzip; the line logged has 200 with gzip and 500 without. *)
Example late_status_logged :
  let withGzip := serve (mainHandler keepLower storedWrite storedClose lateStatusHandler)
                    pngRequest ∅ emptyEnv in
  let without := serve (mainHandler keepLower storedWrite storedClose lateStatusHandler)
                   plainRequest ∅ emptyEnv in
  sentStatus (rec_calls (fst withGzip)) = Some 200 /\
  sentStatus (rec_calls (fst without)) = Some 200 /\
  map log_status (logs (snd withGzip)) = [200] /\
  map log_status (logs (snd without)) = [500].
Proof. vm_compute. repeat split. Qed.

(** The type is matched whatever the case of its letters, and with
    parameters after it. *)
Example shouldCompress_cases :
  shouldCompress keepLower "Text/HTML; charset=utf-8" = true /\
  shouldCompress keepLower "APPLICATION/JSON" = true /\
  shouldCompress keepLower "image/svg+xml" = true /\
  shouldCompress keepLower "image/png" = false /\
  shouldCompress keepLower "application/octet-stream" = false /\
  shouldCompress keepLower "" = false.
Proof. vm_compute. repeat split. Qed.

(** ** The further properties at concrete inputs *)

(** X2 on [text/html] with a charset. *)
Lemma shouldCompress_suffix_witness :
  GoStrings.isASCII "text/html" = true /\
  GoStrings.isASCII "; charset=utf-8" = true /\
  shouldCompress keepLower "text/html" = true /\
  shouldCompress keepLower ("text/html" ++ "; charset=utf-8") = true.
Proof.
  split; [reflexivity|]. split; [reflexivity|]. split; [reflexivity|].
  apply (shouldCompress_suffix keepLower "text/html" "; charset=utf-8");
    reflexivity.
Defined.

(** X3 on the empty type. *)
Lemma shouldCompress_short_witness :
  GoStrings.isASCII "" = true /\
  (String.length "" < 5)%nat /\
  shouldCompress keepLower "" = false.
Proof.
  split; [reflexivity|]. split; [simpl; lia|].
  apply (shouldCompress_short keepLower ""); [reflexivity | simpl; lia].
Defined.


(** X5 on a handler that sets a header only. *)
Lemma uncommitted_sends_nothing_witness :
  acceptsGzip htmlRequest = true /\
  commitType ∅ (bh_ops headerOnlyHandler htmlRequest) = None /\
  rec_calls
    (fst (serve (gzipMiddleware keepLower storedWrite storedClose
                   (serveBase headerOnlyHandler)) htmlRequest ∅ emptyEnv))
  = [].
Proof.
  assert (Hacc : acceptsGzip htmlRequest = true) by (vm_compute; reflexivity).
  split; [exact Hacc|]. split; [reflexivity|].
  now rewrite (uncommitted_sends_nothing keepLower storedWrite storedClose
                 headerOnlyHandler htmlRequest ∅ emptyEnv Hacc eq_refl).
Defined.

(** X6 on the 404 without body. *)
Lemma empty_buffer_sends_nothing_witness :
  acceptsGzip missingRequest = true /\
  emptyBuffered keepLower ∅ (bh_ops missingHandler missingRequest) = true /\
  rec_calls
    (fst (serve (gzipMiddleware keepLower storedWrite storedClose
                   (serveBase missingHandler)) missingRequest ∅ emptyEnv))
  = [].
Proof.
  assert (Hacc : acceptsGzip missingRequest = true) by (vm_compute; reflexivity).
  assert (He : emptyBuffered keepLower ∅ (bh_ops missingHandler missingRequest) = true)
    by (vm_compute; reflexivity).
  split; [exact Hacc|]. split; [exact He|].
  now rewrite (empty_buffer_sends_nothing keepLower storedWrite storedClose
                 missingHandler missingRequest ∅ emptyEnv Hacc He).
Defined.

(** X7 on a handler that sets 404 and then 500. *)
Lemma gzip_single_WriteHeader_witness :
  acceptsGzip pngRequest = true /\
  headerCalls
    (callsFor (gzipMiddleware keepLower storedWrite storedClose (serveBase twoStatusHandler))
       pngRequest ∅ emptyEnv)
  = [404].
Proof.
  assert (Hacc : acceptsGzip pngRequest = true) by (vm_compute; reflexivity).
  split; [exact Hacc|].
  rewrite (gzip_single_WriteHeader keepLower storedWrite storedClose
             twoStatusHandler pngRequest ∅ emptyEnv Hacc).
  vm_compute. reflexivity.
Defined.

(** X8 on scenario A over the recorder. *)
Lemma logging_transparent_witness :
  LawfulWriter recorder /\
  ReliableWriter recorder /\
  fst (mainHandler keepLower storedWrite storedClose htmlHandler recorder _
         htmlRequest (newRecorder, emptyEnv))
  = fst (gzipMiddleware keepLower storedWrite storedClose (serveBase htmlHandler) recorder _
           htmlRequest (newRecorder, emptyEnv)).
Proof.
  split; [exact recorder_Lawful|]. split; [exact recorder_Reliable|].
  exact (proj1 (@logging_transparent keepLower storedWrite storedClose recorder _
                  recorder_Lawful recorder_Reliable htmlHandler htmlRequest
                  newRecorder emptyEnv)).
Defined.

(** X9 on scenario A over the recorder. *)
Lemma one_log_line_witness :
  LawfulWriter recorder /\
  ReliableWriter recorder /\
  List.length
    (logs (snd (mainHandler keepLower storedWrite storedClose htmlHandler recorder _
                  htmlRequest (newRecorder, emptyEnv))))
  = 1%nat.
Proof.
  split; [exact recorder_Lawful|]. split; [exact recorder_Reliable|].
  rewrite (@one_log_line keepLower storedWrite storedClose recorder _
             recorder_Lawful recorder_Reliable htmlHandler htmlRequest
             newRecorder emptyEnv).
  reflexivity.
Defined.


(** X11 on a handler that writes and then sets 500. *)
Lemma plain_logged_after_write_witness :
  acceptsGzip plainRequest = false /\
  splitCommit (bh_ops lateStatusHandler plainRequest)
  = ([OpSet "Content-Type" "image/png"], Some (OpWrite pngBody, [OpWriteHeader 500])) /\
  statusAttempts [OpWriteHeader 500] = [500] /\
  sentStatus
    (rec_calls (fst (serve (mainHandler keepLower storedWrite storedClose lateStatusHandler)
                       plainRequest ∅ emptyEnv)))
  = Some StatusOK /\
  map log_status
    (logs (snd (serve (mainHandler keepLower storedWrite storedClose lateStatusHandler)
                  plainRequest ∅ emptyEnv)))
  = [500].
Proof.
  assert (Hacc : acceptsGzip plainRequest = false) by (vm_compute; reflexivity).
  destruct (plain_logged_after_write keepLower storedWrite storedClose
              lateStatusHandler plainRequest ∅ emptyEnv
              [OpSet "Content-Type" "image/png"] [OpWriteHeader 500] pngBody 500 []
              Hacc eq_refl eq_refl) as [Hs Hl].
  split; [exact Hacc|]. split; [reflexivity|]. split; [reflexivity|].
  split; [exact Hs | exact Hl].
Defined.

(** X12 on scenario A and the key [Content-Type]. *)
Lemma flush_keeps_other_keys_witness :
  acceptsGzip htmlRequest = true /\
  compresses keepLower ∅ (bh_ops htmlHandler htmlRequest) = true /\
  "Content-Type" <> "Content-Encoding" /\
  "Content-Type" <> "Content-Length" /\
  Forall (fun c => Header.Get (callHeader c) "Content-Type" = "text/html")
    (callsFor (gzipMiddleware keepLower storedWrite storedClose (serveBase htmlHandler))
       htmlRequest ∅ emptyEnv).
Proof.
  assert (Hacc : acceptsGzip htmlRequest = true) by (vm_compute; reflexivity).
  assert (Hc : compresses keepLower ∅ (bh_ops htmlHandler htmlRequest) = true)
    by (vm_compute; reflexivity).
  assert (H1 : "Content-Type" <> "Content-Encoding") by discriminate.
  assert (H2 : "Content-Type" <> "Content-Length") by discriminate.
  split; [exact Hacc|]. split; [exact Hc|]. split; [exact H1|]. split; [exact H2|].
  eapply Forall_impl;
    [exact (flush_keeps_other_keys keepLower storedWrite storedClose
              htmlHandler htmlRequest ∅ emptyEnv "Content-Type" Hacc Hc H1 H2)|].
  intros c Hk. unfold Header.Get. rewrite Hk. reflexivity.
Defined.

(** X16 on the decorator of scenario A. *)
Lemma decorator_header_immediate_witness :
  LawfulWriter recorder /\
  Header.Get
    (Header (grw_ResponseWriter
               (decoratorAfter keepLower ∅ (bh_ops htmlHandler htmlRequest))))
    "Content-Length"
  = "13".
Proof.
  split; [exact recorder_Lawful|]. unfold decoratorAfter.
  rewrite (@decorator_header_immediate keepLower recorder _ recorder_Lawful).
  reflexivity.
Defined.

(** X17 on a handler that sets 404 and then 500. *)
Lemma plain_forwards_every_WriteHeader_witness :
  acceptsGzip plainRequest = false /\
  headerCalls
    (rec_calls (fst (serve (mainHandler keepLower storedWrite storedClose twoStatusHandler)
                       plainRequest ∅ emptyEnv)))
  = [404; 500].
Proof.
  assert (Hacc : acceptsGzip plainRequest = false) by (vm_compute; reflexivity).
  split; [exact Hacc|].
  rewrite (plain_forwards_every_WriteHeader keepLower storedWrite storedClose
             twoStatusHandler plainRequest ∅ emptyEnv Hacc).
  reflexivity.
Defined.
